(** * pyprojectutils: project discovery, metadata resolution and version bumps

    A shallow embedding of [pyprojectutils/library/projects.py],
    [pyprojectutils/library/releases.py] and [pyprojectutils/constants.py].

    Python objects carry dynamic attributes ([setattr] with keys read from a
    configuration file), so a [Project] is an attribute map.  Everything the
    code asks of the operating system (file tests, directory listings, file
    contents, shell commands, parsed ini files) is a field of a [World]
    record; exceptions are the [Raise] branch of a small error monad. *)

From Stdlib Require Import ZArith NArith Ascii String List DecimalString.
From Stdlib Require Import Sorted Permutation DecimalFacts DecimalPos DecimalN.
From stdpp Require Import base option list strings gmap fin_maps.

Open Scope string_scope.

(** ** Python values *)

(** What an attribute of a project can hold: [None], a boolean, a string, a
    list of strings (tags), or a configuration section (an attribute bag). *)
Inductive atom :=
  | ANone
  | ABool (b : bool)
  | AStr (s : string)
  | AList (l : list string).

Inductive value :=
  | VAtom (a : atom)
  | VSection (bag : gmap string atom).

#[global] Instance atom_eq_dec : EqDecision atom.
Proof. solve_decision. Defined.

#[global] Instance value_eq_dec : EqDecision value.
Proof. solve_decision. Defined.

Abbreviation VNone := (VAtom ANone).
Abbreviation VBool b := (VAtom (ABool b)).
Abbreviation VStr s := (VAtom (AStr s)).

(** Python truthiness ([if x:], [x or y], [not x]).  A section is a plain
    object and is always true. *)
Definition truthy (v : value) : bool :=
  match v with
  | VAtom ANone => false
  | VAtom (ABool b) => b
  | VAtom (AStr s) => negb (String.eqb s "")
  | VAtom (AList l) => match l with [] => false | _ => true end
  | VSection _ => true
  end.

(** [search == value] where [search] is a plain value: equal atoms are
    equal, a section object never equals a plain value. *)
Definition py_eq (search : atom) (v : value) : bool :=
  match v with
  | VAtom a => bool_decide (search = a)
  | VSection _ => false
  end.

(** ** Exceptions *)

Inductive exn := AttributeError | TypeError | ValueError | OSError | IOError.

Inductive result (A : Type) :=
  | Ok (a : A)
  | Raise (e : exn).
Arguments Ok {A} a.
Arguments Raise {A} e.

Definition bind {A B : Type} (m : result A) (k : A -> result B) : result B :=
  match m with
  | Ok a => k a
  | Raise e => Raise e
  end.

Notation "'let*' x ':=' m 'in' k" := (bind m (fun x => k))
  (at level 10, x pattern, m at level 100, k at level 200).

(** ** String methods *)

Definition is_upper (c : ascii) : bool :=
  let n := nat_of_ascii c in (65 <=? n)%nat && (n <=? 90)%nat.

Definition lower_char (c : ascii) : ascii :=
  if is_upper c then ascii_of_nat (nat_of_ascii c + 32) else c.

Fixpoint map_chars (f : ascii -> ascii) (s : string) : string :=
  match s with
  | EmptyString => EmptyString
  | String c s' => String (f c) (map_chars f s')
  end.

(** [s.lower()] *)
Definition lower (s : string) : string := map_chars lower_char s.

(** [s.replace(old, new)] for one-character [old] and [new]. *)
Definition replace (old new : ascii) (s : string) : string :=
  map_chars (fun c => if Ascii.eqb c old then new else c) s.

(** The characters [str.strip()] removes: space, tab, newline, carriage
    return, vertical tab, form feed. *)
Definition is_space (c : ascii) : bool :=
  let n := nat_of_ascii c in (n =? 32)%nat || ((9 <=? n)%nat && (n <=? 13)%nat).

Fixpoint lstrip (s : string) : string :=
  match s with
  | EmptyString => EmptyString
  | String c s' => if is_space c then lstrip s' else s
  end.

Fixpoint rstrip (s : string) : string :=
  match s with
  | EmptyString => EmptyString
  | String c s' =>
      match rstrip s' with
      | EmptyString => if is_space c then EmptyString else String c EmptyString
      | r => String c r
      end
  end.

(** [s.strip()] *)
Definition strip (s : string) : string := rstrip (lstrip s).

Definition startswith (c : ascii) (s : string) : bool :=
  match s with
  | String c' _ => Ascii.eqb c c'
  | EmptyString => false
  end.

Fixpoint endswith (c : ascii) (s : string) : bool :=
  match s with
  | EmptyString => false
  | String c' EmptyString => Ascii.eqb c c'
  | String _ s' => endswith c s'
  end.

(** ** The operating system *)

(** A package descriptor of a dependency manifest: its name and the
    environments it is listed for. *)
Record Package := { pkg_name : string; pkg_env : string }.

#[global] Instance Package_eq_dec : EqDecision Package.
Proof. solve_decision. Defined.

Record World := {
  (** [os.path.exists] *)
  path_exists : string -> bool;
  (** [os.path.isdir] *)
  path_isdir : string -> bool;
  (** [os.listdir]; [None] when the call raises [OSError] *)
  listdir : string -> option (list string);
  (** [open(path, "rb").read()]; [None] when it raises [IOError] *)
  read_file : string -> option string;
  (** [commands.getstatusoutput]: wait status and output of a shell command *)
  getstatusoutput : string -> Z * string;
  (** the sections of an ini file, each with its key/value items, in file
      order; [None] when the file cannot be parsed *)
  ini_sections : string -> option (list (string * list (string * atom)));
  (** the package descriptors of a dependency manifest; [None] when the
      manifest cannot be loaded *)
  manifest_packages : string -> option (list Package)
}.

(** [os.path.join(a, b)] of [posixpath]. *)
Definition os_path_join (a b : string) : string :=
  if startswith "/" b then b
  else if String.eqb a "" || endswith "/" a then a +:+ b
  else a +:+ "/" +:+ b.

(** ** Objects with dynamic attributes *)

(** An instance of [Project]: its attribute dictionary, and the file path
    its configuration loader was constructed with. *)
Record instance := {
  attrs : gmap string value;
  config_path : string
}.

Definition setattr (self : instance) (k : string) (v : value) : instance :=
  {| attrs := <[k:=v]> (attrs self); config_path := config_path self |}.

(** [getattr(self, k)], raising [AttributeError] when absent. *)
Definition getattr (self : instance) (k : string) : result value :=
  match attrs self !! k with
  | Some v => Ok v
  | None => Raise AttributeError
  end.

(** [getattr(self, k, None)] *)
Definition getattr_default (self : instance) (k : string) : value :=
  default VNone (attrs self !! k).

(** A value used where the [os.path] functions expect a string. *)
Definition as_path (v : value) : result string :=
  match v with
  | VAtom (AStr s) => Ok s
  | _ => Raise TypeError
  end.

(** A value used as the first argument of [os.path.join]: a value that is
    not a string has no [endswith], and the join raises [AttributeError]. *)
Definition as_joined (v : value) : result string :=
  match v with
  | VAtom (AStr s) => Ok s
  | _ => Raise AttributeError
  end.

(** [obj.k] on an attribute value: only a section has attributes of its
    own. *)
Definition section_attr (obj : value) (k : string) : result value :=
  match obj with
  | VSection bag =>
      match bag !! k with
      | Some a => Ok (VAtom a)
      | None => Raise AttributeError
      end
  | VAtom _ => Raise AttributeError
  end.

(** ** The configuration loader *)

Module Config.

(** Modelled from the spec: the [Config] base class ([library/config.py]) is
    not among the sources.  Its constructor records the file path and the
    debug flag and starts unloaded. *)
Definition __init__ (self : gmap string value) (path : string) (debug : bool)
  : instance :=
  {| attrs := <["is_loaded":=VBool false]> (<["debug":=VBool debug]> self);
     config_path := path |}.

(** Modelled from the spec: the hook invoked per named section during load;
    by default a section is exposed as an attribute-bag object under its
    name. *)
Definition _load_section (self : instance) (name : string)
    (values : list (string * atom)) : instance :=
  setattr self name (VSection (list_to_map values)).

(** Modelled from the spec: [Config.load], given the per-section hook of the
    subclass.  A missing or unparsable file is a failure ([False]) and
    changes nothing; on success every section goes through the hook and
    [is_loaded] becomes [True]. *)
Definition load (w : World)
    (hook : instance -> string -> list (string * atom) -> instance)
    (self : instance) : instance * bool :=
  if negb (path_exists w (config_path self)) then (self, false)
  else
    match ini_sections w (config_path self) with
    | None => (self, false)
    | Some sections =>
        let self := fold_left (fun o s => hook o (fst s) (snd s)) sections self in
        (setattr self "is_loaded" (VBool true), true)
    end.

End Config.

(** ** The dependency manifest reader *)

Module PackageConfig.

Record t := {
  path : string;
  is_loaded : bool;
  packages : list Package
}.

(** Modelled from the spec: the [PackageConfig] class
    ([library/packaging.py]) is not among the sources.  A fresh reader holds
    no packages. *)
Definition __init__ (p : string) : t :=
  {| path := p; is_loaded := false; packages := [] |}.

(** Modelled from the spec: [load() -> bool]. *)
Definition load (w : World) (self : t) : t * bool :=
  match manifest_packages w (path self) with
  | Some ps => ({| path := path self; is_loaded := true; packages := ps |}, true)
  | None => (self, false)
  end.

(** Modelled from the spec: [get_packages(env)] is the ordered sequence of
    the packages of one environment, or of all when [env] is [None]. *)
Definition get_packages (self : t) (env : option string) : list Package :=
  match env with
  | None => packages self
  | Some e => filter (fun p => pkg_env p = e) (packages self)
  end.

End PackageConfig.

(** ** constants.py *)

Definition BASE_ENVIRONMENT := "base".
Definition CONTROL_ENVIRONMENT := "control".
Definition DEVELOPMENT_ENVIRONMENT := "development".
Definition TESTING_ENVIRONMENT := "testing".
Definition STAGING_ENVIRONMENT := "staging".
Definition LIVE_ENVIRONMENT := "live".

Definition ENVIRONMENTS : list string :=
  [ BASE_ENVIRONMENT; CONTROL_ENVIRONMENT; DEVELOPMENT_ENVIRONMENT;
    TESTING_ENVIRONMENT; STAGING_ENVIRONMENT; LIVE_ENVIRONMENT ].

(** ** projects.py: the Project class *)

Definition dquote : string := String "034" "".

Module Project.

(** [Project.__init__(name, root, debug)] *)
Definition __init__ (w : World) (name root : string) (debug : bool) : instance :=
  let self : gmap string value :=
    fold_left (fun m kv => <[kv.1:=kv.2]> m)
      [ ("config_exists", VNone);
        ("description", VNone);
        ("disk", VStr "TBD");
        ("is_dirty", VNone);
        ("is_loaded", VBool false);
        ("name", VStr name);
        ("org", VStr "Unknown");
        ("root", VStr root);
        ("scm", VNone);
        ("status", VStr "unknown");
        ("tags", VAtom (AList []));
        ("title", VNone);
        ("type", VStr "project");
        ("version", VStr "0.1.0-d");
        ("_requirements", VAtom (AList [])) ] ∅ in
  let config_path := os_path_join root "project.ini" in
  let self :=
    if path_exists w config_path
    then <["config_exists":=VBool true]> self
    else <["config_exists":=VBool false]> self in
  Config.__init__ self config_path debug.

(** [_load_section]: the keys of the [project] section become attributes of
    the project itself; any other section goes to the base class. *)
Definition _load_section (self : instance) (name : string)
    (values : list (string * atom)) : instance :=
  if String.eqb name "project"
  then fold_left (fun o kv => setattr o kv.1 (VAtom kv.2)) values self
  else Config._load_section self name values.

Definition _file_exists (w : World) (self : instance) (name : string)
  : result bool :=
  let* root := getattr self "root" in
  if negb (truthy root) then Raise ValueError
  else
    let* r := as_joined root in
    Ok (path_exists w (os_path_join r name)).

Definition _get_path (self : instance) (name : string) : result string :=
  let* root := getattr self "root" in
  let* r := as_joined root in
  Ok (os_path_join r name).

Definition du_cmd (root : string) : string :=
  "du -hs " +:+ root +:+ " | awk -F ' ' '{print $1}'".

Definition _get_disk (w : World) (self : instance) : result string :=
  let* root := getattr self "root" in
  let* r := as_path root in
  let '(status, output) := getstatusoutput w (du_cmd r) in
  Ok (strip output).

Definition _get_org (self : instance) : value :=
  let obj := getattr_default self "client" in
  if truthy obj then
    match section_attr obj "code" with
    | Ok code => code
    | Raise _ => VStr "Unidentified"
    end
  else
    let obj := getattr_default self "business" in
    if truthy obj then
      match section_attr obj "code" with
      | Ok code => code
      | Raise _ => VStr "Internal"
      end
    else VStr "Unknown".

Definition git_cmd (root : string) : string :=
  "(cd " +:+ root +:+ " && test -z " +:+ dquote
    +:+ "$(git status --porcelain)" +:+ dquote +:+ ")".

(** [_get_scm]: the label, and the instance with [is_dirty] assigned in the
    git case. *)
Definition _get_scm (w : World) (self : instance) : result (string * instance) :=
  let* git := _file_exists w self ".git" in
  if git then
    let* root := getattr self "root" in
    let* r := as_path root in
    let '(status, output) := getstatusoutput w (git_cmd r) in
    let self :=
      if (1 <=? status)%Z
      then setattr self "is_dirty" (VBool true)
      else setattr self "is_dirty" (VBool false) in
    Ok ("git", self)
  else
    let* hg := _file_exists w self ".hg" in
    if hg then Ok ("hg", self)
    else
      let* svn := _file_exists w self "trunk" in
      if svn then Ok ("svn", self)
      else Ok ("None", self).

Definition _get_version (w : World) (self : instance) : result string :=
  let* found := _file_exists w self "VERSION.txt" in
  if found then
    let* p := _get_path self "VERSION.txt" in
    match read_file w p with
    | Some v => Ok (strip v)
    | None => Raise IOError
    end
  else Ok "0.1.0-d".

(** [load(include_disk)]: the instance afterwards and the returned value. *)
Definition load (w : World) (include_disk : bool) (self : instance)
  : result (instance * value) :=
  let* root := getattr self "root" in
  let* r := as_path root in
  if negb (path_exists w r) then
    Ok (setattr self "is_loaded" (VBool false), VBool false)
  else
    let '(self, _) := Config.load w _load_section self in
    let* title := getattr self "title" in
    let* self :=
      if negb (truthy title) then
        let* name := getattr self "name" in
        Ok (setattr self "title" name)
      else Ok self in
    let self := setattr self "org" (_get_org self) in
    let* (scm, self) := _get_scm w self in
    let self := setattr self "scm" (VStr (strip scm)) in
    let* version := _get_version w self in
    let self := setattr self "version" (VStr version) in
    let* self :=
      if include_disk then
        let* disk := _get_disk w self in
        Ok (setattr self "disk" (VStr disk))
      else Ok self in
    let* loaded := getattr self "is_loaded" in
    Ok (self, loaded).

Definition locations : list string :=
  [ os_path_join (os_path_join "deploy" "requirements") "packages.ini";
    "requirements/packages.ini";
    "requirements.ini" ].

(** [get_dependencies]: the loop over [locations] appends six pairs for each
    location that exists. *)
Definition get_dependencies (w : World) (self : instance)
  : result (list (string * list Package)) :=
  fold_left
    (fun acc i =>
       let* a := acc in
       let* found := _file_exists w self i in
       if found then
         let* path := _get_path self i in
         let* debug := getattr self "debug" in
         let config := PackageConfig.__init__ path in
         let '(config, _) := PackageConfig.load w config in
         Ok (fold_left
               (fun a env =>
                  (a ++ [(env, PackageConfig.get_packages config (Some env))])%list)
               ENVIRONMENTS a)
       else Ok a)
    locations (Ok []).

(** [get_requirements(env)]: [None] is Python's [None]. *)
Fixpoint get_requirements_from (w : World) (self : instance)
    (env : option string) (locs : list string) : result (option (list Package)) :=
  match locs with
  | [] => Ok None
  | i :: locs =>
      let* found := _file_exists w self i in
      if found then
        let* path := _get_path self i in
        let* debug := getattr self "debug" in
        let config := PackageConfig.__init__ path in
        let '(config, loaded) := PackageConfig.load w config in
        if loaded then Ok (Some (PackageConfig.get_packages config env))
        else get_requirements_from w self env locs
      else get_requirements_from w self env locs
  end.

Definition get_requirements (w : World) (self : instance) (env : option string)
  : result (option (list Package)) :=
  get_requirements_from w self env locations.

End Project.

(** ** Calls on an instance *)

(** [Module Project] has each method as the class defines it.  A call
    [self.m(...)] looks [m] up on the instance first: an attribute named
    like the method hides it, and calling what [setattr] put there (a
    string, a list, a boolean or [None]) raises [TypeError].  Modelled from
    the spec: a section object is an attribute bag and cannot be called
    either. *)
Definition method (self : instance) (m : string) : result unit :=
  match attrs self !! m with
  | Some _ => Raise TypeError
  | None => Ok tt
  end.

(** The methods of [Project] as the source calls them, on [self]. *)
Module Call.

(** [self._load_section(name, values)] *)
Definition _load_section (self : instance) (name : string)
    (values : list (string * atom)) : result instance :=
  let* _ := method self "_load_section" in
  Ok (Project._load_section self name values).

(** Modelled from the spec: [Config.load] as [super(Project, self).load()]
    runs it.  [super] finds the loader on the class; the loader calls the
    hook on the instance, once per section, in file order. *)
Definition Config_load (w : World) (self : instance) : result (instance * bool) :=
  if negb (path_exists w (config_path self)) then Ok (self, false)
  else
    match ini_sections w (config_path self) with
    | None => Ok (self, false)
    | Some sections =>
        let* self :=
          fold_left (fun acc s => let* o := acc in _load_section o (fst s) (snd s))
            sections (Ok self) in
        Ok (setattr self "is_loaded" (VBool true), true)
    end.

(** [self._file_exists(name)] *)
Definition _file_exists (w : World) (self : instance) (name : string)
  : result bool :=
  let* _ := method self "_file_exists" in
  Project._file_exists w self name.

(** [self._get_path(name)] *)
Definition _get_path (self : instance) (name : string) : result string :=
  let* _ := method self "_get_path" in
  Project._get_path self name.

(** [self._get_disk()] *)
Definition _get_disk (w : World) (self : instance) : result string :=
  let* _ := method self "_get_disk" in
  Project._get_disk w self.

(** [self._get_org()] *)
Definition _get_org (self : instance) : result value :=
  let* _ := method self "_get_org" in
  Ok (Project._get_org self).

(** [self._get_scm()] *)
Definition _get_scm (w : World) (self : instance) : result (string * instance) :=
  let* _ := method self "_get_scm" in
  let* git := _file_exists w self ".git" in
  if git then
    let* root := getattr self "root" in
    let* r := as_path root in
    let '(status, output) := getstatusoutput w (Project.git_cmd r) in
    let self :=
      if (1 <=? status)%Z
      then setattr self "is_dirty" (VBool true)
      else setattr self "is_dirty" (VBool false) in
    Ok ("git", self)
  else
    let* hg := _file_exists w self ".hg" in
    if hg then Ok ("hg", self)
    else
      let* svn := _file_exists w self "trunk" in
      if svn then Ok ("svn", self)
      else Ok ("None", self).

(** [self._get_version()] *)
Definition _get_version (w : World) (self : instance) : result string :=
  let* _ := method self "_get_version" in
  let* found := _file_exists w self "VERSION.txt" in
  if found then
    let* p := _get_path self "VERSION.txt" in
    match read_file w p with
    | Some v => Ok (strip v)
    | None => Raise IOError
    end
  else Ok "0.1.0-d".

(** [project.load(include_disk)] *)
Definition load (w : World) (include_disk : bool) (self : instance)
  : result (instance * value) :=
  let* _ := method self "load" in
  let* root := getattr self "root" in
  let* r := as_path root in
  if negb (path_exists w r) then
    Ok (setattr self "is_loaded" (VBool false), VBool false)
  else
    let* (self, _) := Config_load w self in
    let* title := getattr self "title" in
    let* self :=
      if negb (truthy title) then
        let* name := getattr self "name" in
        Ok (setattr self "title" name)
      else Ok self in
    let* org := _get_org self in
    let self := setattr self "org" org in
    let* (scm, self) := _get_scm w self in
    let self := setattr self "scm" (VStr (strip scm)) in
    let* version := _get_version w self in
    let self := setattr self "version" (VStr version) in
    let* self :=
      if include_disk then
        let* disk := _get_disk w self in
        Ok (setattr self "disk" (VStr disk))
      else Ok self in
    let* loaded := getattr self "is_loaded" in
    Ok (self, loaded).

End Call.

(** ** projects.py: module functions *)

(** The [for name in names] loop of [autoload_project]. *)
Fixpoint autoload_from (w : World) (include_disk : bool) (path : string)
    (names : list string) : result (option instance) :=
  match names with
  | [] => Ok None
  | name :: names =>
      let root_path := os_path_join path name in
      if path_exists w root_path then
        let project := Project.__init__ w name root_path false in
        let* (project, _) := Project.load w include_disk project in
        Ok (Some project)
      else autoload_from w include_disk path names
  end.

Definition autoload_names (name : string) : list string :=
  let name := lower name in
  [ name; replace "." "_" name; replace " " "-" name; replace " " "_" name ].

Definition autoload_project (w : World) (name : string) (include_disk : bool)
    (path : string) : result (option instance) :=
  autoload_from w include_disk path (autoload_names name).

(** The [for field, search in criteria.items()] loop of [get_projects]. *)
Fixpoint criteria_loop (project : instance) (items : list (string * atom))
    (projects : list instance) : result (list instance) :=
  match items with
  | [] => Ok projects
  | (field, search) :: items =>
      let* value := getattr project field in
      if py_eq search value
      then criteria_loop project items (projects ++ [project])%list
      else criteria_loop project items projects
  end.

(** [if criteria:] is false for [None] and for an empty dict. *)
Definition criteria_truthy (criteria : option (list (string * atom))) : bool :=
  match criteria with
  | Some (_ :: _) => true
  | _ => false
  end.

(** The [for project_name in entries] loop of [get_projects]; [names] is
    never added to by the source. *)
Fixpoint get_projects_loop (w : World) (path : string)
    (criteria : option (list (string * atom))) (include_disk show_all : bool)
    (entries : list string) (names : list string) (projects : list instance)
  : result (list instance) :=
  match entries with
  | [] => Ok projects
  | project_name :: entries =>
      let continue := get_projects_loop w path criteria include_disk show_all
                        entries names in
      let project_root := os_path_join path project_name in
      if negb (path_isdir w project_root) then continue projects
      else if bool_decide (project_name ∈ names) then continue projects
      else
        let project := Project.__init__ w project_name project_root false in
        let* (project, _) := Project.load w include_disk project in
        let* config_exists := getattr project "config_exists" in
        if negb (truthy config_exists) && negb show_all then continue projects
        else if criteria_truthy criteria then
          let* projects := criteria_loop project (default [] criteria) projects in
          continue projects
        else continue (projects ++ [project])%list
  end.

Definition get_projects (w : World) (path : string)
    (criteria : option (list (string * atom))) (include_disk show_all : bool)
  : result (list instance) :=
  match listdir w path with
  | None => Raise OSError
  | Some entries =>
      get_projects_loop w path criteria include_disk show_all entries [] []
  end.

(** ** The semver package *)

Module semver.

Record VersionInfo := {
  major : N;
  minor : N;
  patch : N;
  prerelease : option string;
  build : option string
}.

Definition is_digit (c : ascii) : bool :=
  let n := nat_of_ascii c in (48 <=? n)%nat && (n <=? 57)%nat.

Definition is_alpha (c : ascii) : bool :=
  let n := nat_of_ascii c in
  ((65 <=? n)%nat && (n <=? 90)%nat) || ((97 <=? n)%nat && (n <=? 122)%nat).

(** The character class [[0-9A-Za-z-]]. *)
Definition is_ident_char (c : ascii) : bool :=
  is_digit c || is_alpha c || Ascii.eqb c "-".

(** The longest prefix of characters satisfying [f], and the rest. *)
Fixpoint span (f : ascii -> bool) (s : string) : string * string :=
  match s with
  | EmptyString => (EmptyString, EmptyString)
  | String c s' =>
      if f c then let '(a, b) := span f s' in (String c a, b)
      else (EmptyString, s)
  end.

Definition int_of_digits (ds : string) : N :=
  fold_left (fun acc c => (acc * 10 + N.of_nat (nat_of_ascii c - 48))%N)
    (list_ascii_of_string ds) 0%N.

(** A numeric group of the pattern (zero, or a nonzero digit followed by
    digits) up to the first character that is not a digit: a run of digits
    without a leading zero. *)
Definition numeric (s : string) : option (N * string) :=
  let '(ds, rest) := span is_digit s in
  match ds with
  | EmptyString => None
  | String "0" EmptyString => Some (0%N, rest)
  | String "0" _ => None
  | _ => Some (int_of_digits ds, rest)
  end.

Definition expect (c : ascii) (s : string) : option string :=
  match s with
  | String c' s' => if Ascii.eqb c c' then Some s' else None
  | EmptyString => None
  end.

(** One or more non-empty runs of identifier characters separated by
    single dots, against a whole string. *)
Fixpoint dotted_from (nonempty : bool) (s : string) : bool :=
  match s with
  | EmptyString => nonempty
  | String c s' =>
      if is_ident_char c then dotted_from true s'
      else if Ascii.eqb c "." then nonempty && dotted_from false s'
      else false
  end.

Definition dotted (s : string) : bool := dotted_from false s.

(** The optional [-prerelease] and [+build] groups up to the end. *)
Definition labels (s : string) : option (option string * option string) :=
  match s with
  | EmptyString => Some (None, None)
  | String "-" s' =>
      let '(pre, rest) := span (fun c => negb (Ascii.eqb c "+")) s' in
      if dotted pre then
        match rest with
        | EmptyString => Some (Some pre, None)
        | String _ b => if dotted b then Some (Some pre, Some b) else None
        end
      else None
  | String "+" b => if dotted b then Some (None, Some b) else None
  | _ => None
  end.

(** [$] also matches just before a final newline. *)
Fixpoint chomp (s : string) : string :=
  match s with
  | EmptyString => EmptyString
  | String "010" EmptyString => EmptyString
  | String c s' => String c (chomp s')
  end.

(** Modelled from the spec: the third-party [semver] package is not among
    the sources.  [parse] matches the semantic-version pattern
    [major.minor.patch(-prerelease)?(+build)?] and yields [None] where the
    package raises [ValueError]. *)
Definition parse (version : string) : option VersionInfo :=
  '(ma, s) ← numeric (chomp version);
  s ← expect "." s;
  '(mi, s) ← numeric s;
  s ← expect "." s;
  '(pa, s) ← numeric s;
  '(pre, bld) ← labels s;
  Some {| major := ma; minor := mi; patch := pa; prerelease := pre; build := bld |}.

Definition parse_version_info (version : string) : option VersionInfo :=
  parse version.

Definition str_of_int (n : N) : string :=
  NilEmpty.string_of_uint (N.to_uint n).

(** [format_version(major, minor, patch)] *)
Definition format_version (ma mi pa : N) : string :=
  str_of_int ma +:+ "." +:+ str_of_int mi +:+ "." +:+ str_of_int pa.

(** Modelled from the spec: the bump functions re-format the incremented
    numbers and drop the labels. *)
Definition bump_major (version : string) : option string :=
  v ← parse version; Some (format_version (major v + 1) 0 0).

Definition bump_minor (version : string) : option string :=
  v ← parse version; Some (format_version (major v) (minor v + 1) 0).

Definition bump_patch (version : string) : option string :=
  v ← parse version; Some (format_version (major v) (minor v) (patch v + 1)).

End semver.

(** ** releases.py: the Version class *)

Module Version.

Record t := {
  _current : option string;
  _original : string;
  object : semver.VersionInfo
}.

Definition of_option {A : Type} (o : option A) : result A :=
  match o with
  | Some a => Ok a
  | None => Raise ValueError
  end.

Definition __init__ (string : string) : result t :=
  let* o := of_option (semver.parse_version_info string) in
  Ok {| _current := None; _original := string; object := o |}.

(** Truthiness of an optional string argument or label. *)
Definition given (o : option string) : bool :=
  match o with
  | Some s => negb (String.eqb s "")
  | None => false
  end.

(** [bump(major, minor, patch, status, build)]; the three flags are taken by
    their truth value. *)
Definition bump (self : t) (major minor patch : bool)
    (status build : option string) : result t :=
  let* current :=
    if major then of_option (semver.bump_major (_original self))
    else if minor then of_option (semver.bump_minor (_original self))
    else if patch then of_option (semver.bump_patch (_original self))
    else Ok (_original self) in
  let current :=
    if given status then current +:+ "-" +:+ default "" status
    else if given (semver.prerelease (object self))
         then current +:+ "-" +:+ default "" (semver.prerelease (object self))
         else current in
  let current :=
    if given build then current +:+ "+" +:+ default "" build
    else if given (semver.build (object self))
         then current +:+ "+" +:+ default "" (semver.build (object self))
         else current in
  let* o := of_option (semver.parse_version_info current) in
  Ok {| _current := Some current; _original := _original self; object := o |}.

(** [to_string]: [self._current or self._original] *)
Definition to_string (self : t) : string :=
  if given (_current self) then default "" (_current self) else _original self.

End Version.

(** ** projects.py: what a project prints as, and the aggregation queries *)

(** [Project.__str__]: [self.title or self.name or "Untitled Project"]. *)
Definition Project___str__ (self : instance) : result value :=
  let* title := getattr self "title" in
  if truthy title then Ok title
  else
    let* name := getattr self "name" in
    if truthy name then Ok name else Ok (VStr "Untitled Project").

(** [a == b] between two attribute values of different projects: plain
    values are equal by content; a section is an object of its own and
    equals no other value. *)
Definition value_eqb (a b : value) : bool :=
  match a, b with
  | VAtom x, VAtom y => bool_decide (x = y)
  | _, _ => false
  end.

(** [v in l] *)
Definition py_in (v : value) (l : list value) : bool := existsb (value_eqb v) l.

(** The loop the three queries share: the values of one attribute, each
    kept the first time it is met. *)
Fixpoint collect (field : string) (projects : list instance)
    (acc : list value) : result (list value) :=
  match projects with
  | [] => Ok acc
  | p :: projects =>
      let* v := getattr p field in
      if negb (py_in v acc) then collect field projects (acc ++ [v])%list
      else collect field projects acc
  end.

(** [sorted(l)], a stable sort; [le] is the interpreter's ordering of
    objects ([le x y] when [y < x] does not hold). *)
Fixpoint insert_sorted (le : value -> value -> bool) (x : value)
    (l : list value) : list value :=
  match l with
  | [] => [x]
  | y :: l' => if le x y then x :: l else y :: insert_sorted le x l'
  end.

Definition sorted (le : value -> value -> bool) (l : list value) : list value :=
  foldr (insert_sorted le) [] l.

Definition get_project_clients (le : value -> value -> bool) (w : World)
    (path : string) : result (list value) :=
  let* projects := get_projects w path None false false in
  let* clients := collect "org" projects [] in
  Ok (sorted le clients).

Definition get_project_statuses (le : value -> value -> bool) (w : World)
    (path : string) : result (list value) :=
  let* projects := get_projects w path None false false in
  let* statuses := collect "status" projects [] in
  Ok (sorted le statuses).

Definition get_project_types (le : value -> value -> bool) (w : World)
    (path : string) : result (list value) :=
  let* projects := get_projects w path None false false in
  let* types := collect "type" projects [] in
  Ok (sorted le types).

(** * Specification-side definitions *)

(** The instance as [Config.load] leaves it, with [Project]'s section hook. *)
Definition after_config (w : World) (self : instance) : instance :=
  (Config.load w Project._load_section self).1.

(** The label the marker entries under [root] stand for. *)
Definition scm_label (w : World) (root : string) : string :=
  if path_exists w (os_path_join root ".git") then "git"
  else if path_exists w (os_path_join root ".hg") then "hg"
  else if path_exists w (os_path_join root "trunk") then "svn"
  else "None".

(** ** A sample disk *)

Fixpoint assoc {A : Type} (k : string) (l : list (string * A)) : option A :=
  match l with
  | [] => None
  | (k', a) :: l => if String.eqb k k' then Some a else assoc k l
  end.

(** A world given by finite tables; a shell command that is not listed
    exits with status 0 and prints nothing. *)
Definition table_world (dirs files : list string)
    (listing : list (string * list string))
    (contents : list (string * string))
    (shell : list (string * (Z * string)))
    (inis : list (string * list (string * list (string * atom))))
    (manifests : list (string * list Package)) : World :=
  {| path_exists := fun p => bool_decide (p ∈ dirs) || bool_decide (p ∈ files);
     path_isdir := fun p => bool_decide (p ∈ dirs);
     listdir := fun p => assoc p listing;
     read_file := fun p => assoc p contents;
     getstatusoutput := fun c => default (0%Z, "") (assoc c shell);
     ini_sections := fun p => assoc p inis;
     manifest_packages := fun p => assoc p manifests |}.

(** [/work] holds [alpha] (a git checkout with uncommitted changes, a
    [project.ini] naming a client, a version file and two manifests),
    [beta] (no configuration, a version file, a Mercurial marker) and a
    plain file. *)
Definition work : World :=
  table_world
    [ "/work"; "/work/alpha"; "/work/beta"; "/work/alpha/.git"; "/work/beta/.hg" ]
    [ "/work/notes.txt"; "/work/alpha/project.ini"; "/work/alpha/VERSION.txt";
      "/work/alpha/deploy/requirements/packages.ini";
      "/work/alpha/requirements.ini"; "/work/beta/VERSION.txt" ]
    [ ("/work", ["alpha"; "beta"; "notes.txt"]) ]
    [ ("/work/alpha/VERSION.txt", "1.4.0" +:+ String "010" "");
      ("/work/beta/VERSION.txt", " 2.0.1" +:+ String "010" "") ]
    [ (Project.git_cmd "/work/alpha", (256%Z, "")) ]
    [ ("/work/alpha/project.ini",
       [ ("project", [ ("status", AStr "active"); ("type", AStr "website") ]);
         ("client", [ ("code", AStr "ACME") ]) ]) ]
    [ ("/work/alpha/deploy/requirements/packages.ini",
       [ {| pkg_name := "celery"; pkg_env := "base" |} ]);
      ("/work/alpha/requirements.ini",
       [ {| pkg_name := "django"; pkg_env := "base" |};
         {| pkg_name := "pytest"; pkg_env := "testing" |} ]) ].

(** [/srv] holds [my-site] (an empty directory), [app], whose first
    manifest exists but cannot be loaded and whose last manifest can, and
    [moved], whose [project.ini] rebinds [root] to a path that is gone. *)
Definition srv : World :=
  table_world
    [ "/srv"; "/srv/my-site"; "/srv/app"; "/srv/moved" ]
    [ "/srv/app/deploy/requirements/packages.ini"; "/srv/app/requirements.ini";
      "/srv/moved/project.ini" ]
    [ ("/srv", ["app"; "moved"; "my-site"]) ]
    [] []
    [ ("/srv/moved/project.ini",
       [ ("project", [ ("title", AStr "Moved"); ("root", AStr "/srv/gone") ]) ]) ]
    [ ("/srv/app/requirements.ini",
       [ {| pkg_name := "flask"; pkg_env := "base" |} ]) ].

(** What [git status --porcelain] prints in the checkouts of [work]. *)
Definition work_porcelain (root : string) : string :=
  if String.eqb root "/work/alpha" then " M setup.py" else "".

(** The two sample projects, before and after [load()]. *)
Definition alpha : instance := Project.__init__ work "alpha" "/work/alpha" false.
Definition beta : instance := Project.__init__ work "beta" "/work/beta" false.

Definition my_site : instance :=
  Project.__init__ srv "my-site" "/srv/my-site" false.
Definition webapp : instance := Project.__init__ srv "app" "/srv/app" false.
Definition moved : instance := Project.__init__ srv "moved" "/srv/moved" false.

Definition loaded (w : World) (self : instance) : instance :=
  match Project.load w false self with
  | Ok (self', _) => self'
  | Raise _ => self
  end.

(** ** What a configuration file assigns *)

(** The attribute assignments one section gives rise to, in order. *)
Definition section_assignments (s : string * list (string * atom))
  : list (string * value) :=
  if String.eqb s.1 "project"
  then map (fun kv => (kv.1, VAtom kv.2)) s.2
  else [(s.1, VSection (list_to_map s.2))].

Definition assign (m : gmap string value) (kv : string * value)
  : gmap string value := <[kv.1:=kv.2]> m.

(** The attributes a successful load of the file at [path] assigns, with
    their final values; empty when the file is missing or unparsable. *)
Definition config_writes (w : World) (path : string) : gmap string value :=
  if path_exists w path then
    match ini_sections w path with
    | Some sections =>
        <["is_loaded":=VBool true]>
          (fold_left assign (flat_map section_assignments sections) ∅)
    | None => ∅
    end
  else ∅.

(** ** Discovery, in the words of the specification *)

(** The projects discovery constructs and loads: one per entry of the
    listing that is a directory, in listing order. *)
Fixpoint load_entries (w : World) (path : string) (include_disk : bool)
    (entries : list string) : result (list instance) :=
  match entries with
  | [] => Ok []
  | e :: entries =>
      if path_isdir w (os_path_join path e) then
        let* (p, _) := Project.load w include_disk
                         (Project.__init__ w e (os_path_join path e) false) in
        let* ps := load_entries w path include_disk entries in
        Ok (p :: ps)
      else load_entries w path include_disk entries
  end.

(** The visibility filter: the configuration file exists, or all projects
    are asked for. *)
Definition visible (show_all : bool) (p : instance) : bool :=
  truthy (getattr_default p "config_exists") || show_all.

(** The criteria a project meets: those whose expected value equals the
    project's attribute of that name. *)
Definition matching (criteria : list (string * atom)) (p : instance)
  : list (string * atom) :=
  List.filter (fun fs => py_eq fs.2 (getattr_default p fs.1)) criteria.

(** ** Dependencies, in the words of the specification *)

(** The reader of the manifest at [path], after [load()]. *)
Definition manifest (w : World) (path : string) : PackageConfig.t :=
  (PackageConfig.load w (PackageConfig.__init__ path)).1.

(** Whether [load()] of the manifest at [path] returns [True]. *)
Definition manifest_loads (w : World) (path : string) : bool :=
  (PackageConfig.load w (PackageConfig.__init__ path)).2.

(** One [(env, packages)] pair per environment, from one manifest. *)
Definition environment_entries (w : World) (path : string)
  : list (string * list Package) :=
  map (fun env => (env, PackageConfig.get_packages (manifest w path) (Some env)))
    ENVIRONMENTS.

(** ** What a load assigns after the configuration is read *)

(** The title a load ends with: the configured one, or the name. *)
Definition title_value (s : instance) : result value :=
  let* title := getattr s "title" in
  if truthy title then Ok title else getattr s "name".

(** The attributes [load()] assigns once the configuration is read, with
    their values, as one map: title, org, [is_dirty] for a git checkout,
    scm, version, and disk when asked for. *)
Definition writes (w : World) (include_disk : bool) (s : instance)
  : result (gmap string value) :=
  let* title := title_value s in
  let* root := getattr s "root" in
  if negb (truthy root) then Raise ValueError
  else
    let* r := as_path root in
    let* version :=
      if path_exists w (os_path_join r "VERSION.txt") then
        match read_file w (os_path_join r "VERSION.txt") with
        | Some v => Ok (strip v)
        | None => Raise IOError
        end
      else Ok "0.1.0-d" in
    let W : gmap string value :=
      <["org":=Project._get_org s]> (<["title":=title]> ∅) in
    let W :=
      if path_exists w (os_path_join r ".git")
      then <["is_dirty":=VBool (1 <=? (getstatusoutput w (Project.git_cmd r)).1)%Z]> W
      else W in
    let W := <["version":=VStr version]> (<["scm":=VStr (scm_label w r)]> W) in
    Ok (if include_disk
        then <["disk":=VStr (strip (getstatusoutput w (Project.du_cmd r)).2)]> W
        else W).

(** The fields the idempotence claim lists. *)
Definition load_fields : list string :=
  [ "title"; "org"; "scm"; "is_dirty"; "version"; "disk"; "status"; "type";
    "tags"; "config_exists"; "is_loaded" ].

(** ** More sample disks *)

(** [/shop] holds three configured projects: [til] and [bolt] for clients,
    [crate] an internal one, and a directory [junk] without configuration. *)
Definition shop : World :=
  table_world
    [ "/shop"; "/shop/til"; "/shop/bolt"; "/shop/crate"; "/shop/junk" ]
    [ "/shop/til/project.ini"; "/shop/bolt/project.ini";
      "/shop/crate/project.ini"; "/shop/bolt/requirements.ini" ]
    [ ("/shop", ["til"; "bolt"; "README"; "crate"; "junk"]) ]
    []
    [ (Project.du_cmd "/shop/junk", (0%Z, "12K" +:+ String "010" "")) ]
    [ ("/shop/til/project.ini",
       [ ("project", [ ("status", AStr "live"); ("title", AStr "Til") ]);
         ("client", [ ("code", AStr "ZED") ]) ]);
      ("/shop/bolt/project.ini",
       [ ("project", [ ("status", AStr "live"); ("type", AStr "library");
                       ("status", AStr "closed") ]);
         ("client", [ ("code", AStr "ACME") ]) ]);
      ("/shop/crate/project.ini",
       [ ("project", [ ("status", AStr "live"); ("root", AStr "") ]) ]) ]
    [ ("/shop/bolt/requirements.ini",
       [ {| pkg_name := "requests"; pkg_env := "base" |} ]) ].

Definition til : instance := Project.__init__ shop "til" "/shop/til" false.
Definition bolt : instance := Project.__init__ shop "bolt" "/shop/bolt" false.
Definition junk : instance := Project.__init__ shop "junk" "/shop/junk" false.

(** [/yard] is [/shop] without the project whose configuration blanks its
    root. *)
Definition yard : World :=
  table_world
    [ "/yard"; "/yard/til"; "/yard/bolt"; "/yard/junk" ]
    [ "/yard/til/project.ini"; "/yard/bolt/project.ini" ]
    [ ("/yard", ["til"; "bolt"; "README"; "junk"]) ]
    [] []
    [ ("/yard/til/project.ini",
       [ ("project", [ ("status", AStr "live"); ("title", AStr "Til") ]);
         ("client", [ ("code", AStr "ZED") ]) ]);
      ("/yard/bolt/project.ini",
       [ ("project", [ ("status", AStr "closed"); ("type", AStr "library") ]);
         ("client", [ ("code", AStr "ACME") ]) ]) ]
    [].

(** An ordering for the samples: strings by their characters, anything
    else before any string. *)
Definition sample_le (a b : value) : bool :=
  match a, b with
  | VAtom (AStr x), VAtom (AStr y) => String.leb x y
  | VAtom (AStr _), _ => false
  | _, _ => true
  end.

(** A sample project after [load(include_disk=True)]. *)
Definition loaded_with_disk (w : World) (self : instance) : instance :=
  match Project.load w true self with
  | Ok (self', _) => self'
  | Raise _ => self
  end.

(** ** Version strings, in the words of the specification *)

(** Every character of [s] satisfies [f]. *)
Fixpoint all_chars (f : ascii -> bool) (s : string) : bool :=
  match s with
  | EmptyString => true
  | String c s' => f c && all_chars f s'
  end.

(** [s] is empty or starts with a character that fails [f]. *)
Definition head_fails (f : ascii -> bool) (s : string) : bool :=
  match s with
  | EmptyString => true
  | String c _ => negb (f c)
  end.

(** A label as it is written in a version string: nothing when absent,
    the separator and the label otherwise. *)
Definition label_part (sep : ascii) (label : option string) : string :=
  match label with
  | Some l => String sep l
  | None => ""
  end.

(** A label that the version syntax accepts. *)
Definition valid_label (label : option string) : bool :=
  match label with
  | Some l => semver.dotted l
  | None => true
  end.

(** The numbers after a bump: the first of major, minor, patch that is
    named is incremented and the numbers after it are reset. *)
Definition bumped (major minor patch : bool) (v : semver.VersionInfo)
  : N * N * N :=
  if major then (semver.major v + 1, 0, 0)%N
  else if minor then (semver.major v, semver.minor v + 1, 0)%N
  else if patch then (semver.major v, semver.minor v, semver.patch v + 1)%N
  else (semver.major v, semver.minor v, semver.patch v).

(** ** Attributes that hide methods *)

(** Whether the root of [c] holds a version file. *)
Definition version_file (w : World) (c : instance) : bool :=
  match attrs c !! "root" with
  | Some (VAtom (AStr root)) => path_exists w (os_path_join root "VERSION.txt")
  | _ => false
  end.

(** The methods [load()] calls on the instance once the configuration is
    read: [_get_path] only for a version file, [_get_disk] only on
    request. *)
Definition methods_called (w : World) (include_disk : bool) (c : instance)
  : list string :=
  [ "_get_org"; "_get_scm"; "_file_exists"; "_get_version" ]
  ++ (if version_file w c then [ "_get_path" ] else [])
  ++ (if include_disk then [ "_get_disk" ] else []).

(** [/opt] holds [tool], whose [project.ini] has a key [load] in its
    project section, and [kit], whose [project.ini] ends with a section
    named [_load_section]. *)
Definition opt : World :=
  table_world
    [ "/opt"; "/opt/tool"; "/opt/kit" ]
    [ "/opt/tool/project.ini"; "/opt/kit/project.ini" ]
    [ ("/opt", ["kit"; "tool"]) ]
    [] []
    [ ("/opt/tool/project.ini",
       [ ("project", [ ("title", AStr "Tool"); ("load", AStr "lazy") ]) ]);
      ("/opt/kit/project.ini",
       [ ("project", [ ("title", AStr "Kit") ]);
         ("_load_section", [ ("code", AStr "K1") ]) ]) ]
    [].

Definition tool : instance := Project.__init__ opt "tool" "/opt/tool" false.
Definition kit : instance := Project.__init__ opt "kit" "/opt/kit" false.

(** ** The shell behind the cleanliness test *)

(** [commands.getstatusoutput(cmd)] hands [cmd] to [/bin/sh] and returns
    its wait status with what it printed.  The shell and git are not part
    of the program; [Shell] holds the facts about them that the test
    [(cd ROOT && test -z "$(git status --porcelain)")] depends on. *)
Record Shell := {
  (** git can be run in the directory: it is installed and the directory
      lies in a work tree *)
  git_runs : string -> bool;
  (** the uncommitted changes of the work tree at the directory, as
      [git status --porcelain] lists them: nothing for a clean tree *)
  porcelain : string -> string;
  (** the exit status of a [cd] that fails *)
  cd_status : positive;
  (** what a command writes to standard error *)
  messages : string -> string;
  (** status and output of any other command *)
  other_command : string -> Z * string
}.

(** A character that the shell takes literally. *)
Definition is_word_char (c : ascii) : bool :=
  semver.is_digit c || semver.is_alpha c || Ascii.eqb c "/"
  || Ascii.eqb c "." || Ascii.eqb c "_" || Ascii.eqb c "-".

(** A text that the shell reads as one word, the operand of [cd]: it is
    not empty, does not start like an option, and needs no quoting. *)
Definition shell_word (s : string) : bool :=
  match s with
  | EmptyString => false
  | String c _ => negb (Ascii.eqb c "-") && all_chars is_word_char s
  end.

Fixpoint strip_prefix (p s : string) : option string :=
  match p, s with
  | EmptyString, _ => Some s
  | String a p', String b s' => if Ascii.eqb a b then strip_prefix p' s' else None
  | String _ _, EmptyString => None
  end.

Fixpoint strip_suffix (suffix s : string) : option string :=
  if String.eqb s suffix then Some EmptyString
  else
    match s with
    | EmptyString => None
    | String c s' => String c <$> strip_suffix suffix s'
    end.

(** What follows the operand of [cd] in the cleanliness test. *)
Definition cleanliness_suffix : string :=
  " && test -z " +:+ dquote +:+ "$(git status --porcelain)" +:+ dquote +:+ ")".

(** The text between [(cd ] and the rest of the cleanliness test, when
    [cmd] is such a test. *)
Definition cleanliness_root (cmd : string) : option string :=
  match strip_prefix "(cd " cmd with
  | Some rest => strip_suffix cleanliness_suffix rest
  | None => None
  end.

(** The text up to the first space, and the rest. *)
Fixpoint first_word (s : string) : string * string :=
  match s with
  | EmptyString => (EmptyString, EmptyString)
  | String c s' =>
      if Ascii.eqb c " " then (EmptyString, s)
      else let '(a, b) := first_word s' in (String c a, b)
  end.

(** The shell on a command.  In the cleanliness test the text after [cd]
    is split into words, and [cd] goes to the first; a [cd] that fails ends
    the sub shell with its status.  After a [cd] that succeeds on a single
    word, the command substitution is what git prints on standard output
    in that directory, nothing when git cannot be run, and [test -z] exits
    with 0 when that is empty and with 1 otherwise.  The wait status is the
    exit status times 256.  What [cd] does with further words when the
    first names a directory differs between shells and is left open, as
    are texts with characters that are special to the shell. *)
Definition sh (isdir : string -> bool) (s : Shell) (cmd : string) : Z * string :=
  match cleanliness_root cmd with
  | Some operand =>
      let '(dir, rest) := first_word operand in
      if shell_word dir
         && all_chars (fun c => is_word_char c || Ascii.eqb c " ") rest
      then
        if isdir dir then
          if String.eqb rest "" then
            let printed := if git_runs s dir then porcelain s dir else "" in
            ((if String.eqb printed "" then 0 else 256)%Z, messages s cmd)
          else other_command s cmd
        else ((256 * Z.pos (cd_status s))%Z, messages s cmd)
      else other_command s cmd
  | None => other_command s cmd
  end.

(** The world [w] with its commands run by the shell [s]. *)
Definition with_shell (w : World) (s : Shell) : World :=
  {| path_exists := path_exists w;
     path_isdir := path_isdir w;
     listdir := listdir w;
     read_file := read_file w;
     getstatusoutput := sh (path_isdir w) s;
     ini_sections := ini_sections w;
     manifest_packages := manifest_packages w |}.


Definition without_git : Shell :=
  {| git_runs := fun _ => false;
     porcelain := work_porcelain;
     cd_status := 1;
     messages := fun _ => "sh: git: not found";
     other_command := fun _ => (0%Z, "") |}.



(** * Properties *)

(** ** The error monad *)

Lemma bind_Ok_inv {A B : Type} (m : result A) (k : A -> result B) (b : B) :
  bind m k = Ok b -> exists a, m = Ok a /\ k a = Ok b.
Proof. destruct m as [a|e]; simpl; [eauto | discriminate]. Qed.

Lemma bind_Ok {A B : Type} (m : result A) (k : A -> result B) (a : A) :
  m = Ok a -> bind m k = k a.
Proof. intros ->. reflexivity. Qed.

(** Take apart a hypothesis [let* x := m in k = Ok b]. *)
Ltac bind_inv H :=
  let a := fresh "a" in
  let E := fresh "E" in
  apply bind_Ok_inv in H; destruct H as (a & E & H).

(** ** Attributes *)

Lemma getattr_lookup (self : instance) (k : string) (v : value) :
  attrs self !! k = Some v -> getattr self k = Ok v.
Proof. unfold getattr. intros ->. reflexivity. Qed.

Lemma getattr_Ok (self : instance) (k : string) (v : value) :
  getattr self k = Ok v -> attrs self !! k = Some v.
Proof. unfold getattr. destruct (attrs self !! k); congruence. Qed.

Lemma as_path_Ok (v : value) (s : string) : as_path v = Ok s -> v = VStr s.
Proof. destruct v as [[| | |]|]; simpl; intros; congruence. Qed.

Lemma as_joined_Ok (v : value) (s : string) : as_joined v = Ok s -> v = VStr s.
Proof. destruct v as [[| | |]|]; simpl; intros; congruence. Qed.

Lemma attrs_setattr (self : instance) (k : string) (v : value) :
  attrs (setattr self k v) = <[k:=v]> (attrs self).
Proof. reflexivity. Qed.

Lemma config_path_setattr (self : instance) (k : string) (v : value) :
  config_path (setattr self k v) = config_path self.
Proof. reflexivity. Qed.

Lemma truthy_VStr (s : string) : truthy (VStr s) = true <-> s <> "".
Proof.
  unfold truthy.
  destruct (String.eqb_spec s ""); simpl; split; intros; congruence.
Qed.

(** ** Files under the project root *)

Lemma _file_exists_root (w : World) (self : instance) (root name : string) :
  attrs self !! "root" = Some (VStr root) -> root <> "" ->
  Project._file_exists w self name = Ok (path_exists w (os_path_join root name)).
Proof.
  intros Hr Hne. unfold Project._file_exists.
  rewrite (getattr_lookup _ _ _ Hr). cbn [bind].
  apply truthy_VStr in Hne. rewrite Hne. reflexivity.
Qed.

(** A successful file test tells that the root is a non-empty string. *)
Lemma _file_exists_Ok (w : World) (self : instance) (name : string) (b : bool) :
  Project._file_exists w self name = Ok b ->
  exists root, attrs self !! "root" = Some (VStr root) /\ root <> "" /\
               b = path_exists w (os_path_join root name).
Proof.
  unfold Project._file_exists. intros H. bind_inv H.
  apply getattr_Ok in E.
  destruct (truthy a) eqn:Ht; simpl in H; [|discriminate].
  bind_inv H. apply as_joined_Ok in E0. subst a.
  exists a0. apply truthy_VStr in Ht. inversion H. auto.
Qed.

Lemma _get_path_root (self : instance) (root name : string) :
  attrs self !! "root" = Some (VStr root) ->
  Project._get_path self name = Ok (os_path_join root name).
Proof.
  intros Hr. unfold Project._get_path.
  rewrite (getattr_lookup _ _ _ Hr). reflexivity.
Qed.

(** ** Source-control detection *)

Lemma _get_scm_root (w : World) (self : instance) (root : string) :
  attrs self !! "root" = Some (VStr root) -> root <> "" ->
  Project._get_scm w self =
    Ok (scm_label w root,
        if path_exists w (os_path_join root ".git")
        then setattr self "is_dirty"
               (VBool (1 <=? (getstatusoutput w (Project.git_cmd root)).1)%Z)
        else self).
Proof.
  intros Hr Hne. unfold Project._get_scm, scm_label.
  rewrite !(_file_exists_root _ _ _ _ Hr Hne). cbn [bind].
  destruct (path_exists w (os_path_join root ".git")).
  - rewrite (getattr_lookup _ _ _ Hr). cbn [bind as_path].
    destruct (getstatusoutput w (Project.git_cmd root)) as [status output].
    cbn [fst]. destruct (1 <=? status)%Z; reflexivity.
  - destruct (path_exists w (os_path_join root ".hg")); [reflexivity|].
    destruct (path_exists w (os_path_join root "trunk")); reflexivity.
Qed.

Lemma _get_scm_Ok (w : World) (self self' : instance) (scm : string) :
  Project._get_scm w self = Ok (scm, self') ->
  exists root, attrs self !! "root" = Some (VStr root) /\ root <> "" /\
    scm = scm_label w root /\
    self' = if path_exists w (os_path_join root ".git")
            then setattr self "is_dirty"
                   (VBool (1 <=? (getstatusoutput w (Project.git_cmd root)).1)%Z)
            else self.
Proof.
  intros H.
  assert (exists b, Project._file_exists w self ".git" = Ok b) as [b Hb].
  { unfold Project._get_scm in H. bind_inv H. eauto. }
  apply _file_exists_Ok in Hb as (root & Hr & Hne & _).
  rewrite (_get_scm_root _ _ _ Hr Hne) in H. inversion H. eauto.
Qed.

Lemma strip_scm_label (w : World) (root : string) :
  strip (scm_label w root) = scm_label w root.
Proof.
  unfold scm_label.
  repeat match goal with |- context [if ?b then _ else _] => destruct b end;
    reflexivity.
Qed.

(** ** Version detection *)

Lemma _get_version_Ok (w : World) (self : instance) (v : string) :
  Project._get_version w self = Ok v ->
  exists root, attrs self !! "root" = Some (VStr root) /\ root <> "" /\
    (path_exists w (os_path_join root "VERSION.txt") = true ->
     exists content, read_file w (os_path_join root "VERSION.txt") = Some content
                     /\ v = strip content) /\
    (path_exists w (os_path_join root "VERSION.txt") = false -> v = "0.1.0-d").
Proof.
  unfold Project._get_version. intros H. bind_inv H.
  apply _file_exists_Ok in E as (root & Hr & Hne & ->).
  exists root. split; [done|]. split; [done|].
  destruct (path_exists w (os_path_join root "VERSION.txt")).
  - rewrite (_get_path_root _ _ _ Hr) in H. cbn [bind] in H.
    destruct (read_file w (os_path_join root "VERSION.txt")) as [c|];
      [|discriminate].
    inversion H. split; [eauto | discriminate].
  - inversion H. split; [discriminate | done].
Qed.

(** ** What a load that goes past the root test does *)

Lemma load_missing (w : World) (d : bool) (self : instance) (r : string) :
  attrs self !! "root" = Some (VStr r) -> path_exists w r = false ->
  Project.load w d self = Ok (setattr self "is_loaded" (VBool false), VBool false).
Proof.
  intros Hr He. unfold Project.load.
  rewrite (getattr_lookup _ _ _ Hr). cbn [bind as_path].
  rewrite He. reflexivity.
Qed.

Lemma load_inv (w : World) (d : bool) (self self' : instance) (r : string)
    (ret : value) :
  attrs self !! "root" = Some (VStr r) -> path_exists w r = true ->
  Project.load w d self = Ok (self', ret) ->
  exists title s2 scm s3 version,
    getattr (after_config w self) "title" = Ok title /\
    (if truthy title then s2 = after_config w self
     else exists name, getattr (after_config w self) "name" = Ok name /\
                       s2 = setattr (after_config w self) "title" name) /\
    Project._get_scm w (setattr s2 "org" (Project._get_org s2)) = Ok (scm, s3) /\
    Project._get_version w (setattr s3 "scm" (VStr (strip scm))) = Ok version /\
    let s5 := setattr (setattr s3 "scm" (VStr (strip scm))) "version" (VStr version) in
    (if d then exists disk, Project._get_disk w s5 = Ok disk /\
                            self' = setattr s5 "disk" (VStr disk)
     else self' = s5) /\
    getattr self' "is_loaded" = Ok ret.
Proof.
  intros Hr He H. unfold Project.load in H.
  rewrite (getattr_lookup _ _ _ Hr) in H. cbn [bind as_path] in H.
  rewrite He in H. cbn [negb] in H. unfold after_config.
  destruct (Config.load w Project._load_section self) as [s1 ok]. cbn [fst].
  bind_inv H. rename a into title. exists title.
  bind_inv H. rename a into s2. exists s2.
  bind_inv H. destruct a as [scm s3]. exists scm, s3.
  bind_inv H. rename a into version. exists version.
  bind_inv H. rename a into s6.
  bind_inv H. inversion H; subst. clear H.
  split; [done|]. split.
  { destruct (truthy title); cbn [negb] in E0.
    - by inversion E0.
    - bind_inv E0. inversion E0. eauto. }
  split; [done|]. split; [done|]. split; [|done].
  destruct d.
  - bind_inv E3. inversion E3. eauto.
  - by inversion E3.
Qed.

(** ** Absent roots and absent candidates *)

(** C5.  Absence is not an exception: loading a project whose root does not
    exist returns [False] and leaves [is_loaded] false (nothing else is
    touched), and [autoload_project] returns [None] when none of its
    candidate directories exists. *)
Theorem absence_is_not_an_exception (w : World) (d : bool) :
  (forall (self : instance) (r : string),
     attrs self !! "root" = Some (VStr r) -> path_exists w r = false ->
     Project.load w d self
       = Ok (setattr self "is_loaded" (VBool false), VBool false)
     /\ attrs (setattr self "is_loaded" (VBool false)) !! "is_loaded"
        = Some (VBool false))
  /\
  (forall (name path : string),
     (forall n, n ∈ autoload_names name ->
                path_exists w (os_path_join path n) = false) ->
     autoload_project w name d path = Ok None).
Proof.
  split.
  - intros self r Hr He. split; [by apply load_missing with r|].
    rewrite attrs_setattr. apply lookup_insert_eq.
  - intros name path Hnone. unfold autoload_project.
    induction (autoload_names name) as [|n ns IH]; [reflexivity|].
    cbn [autoload_from]. rewrite Hnone by apply list_elem_of_here.
    apply IH. intros n' Hn'. apply Hnone. by apply list_elem_of_further.
Qed.

Lemma absence_is_not_an_exception_witness :
  Project.load work false (Project.__init__ work "gamma" "/work/gamma" false)
    = Ok (setattr (Project.__init__ work "gamma" "/work/gamma" false)
            "is_loaded" (VBool false), VBool false)
  /\ autoload_project work "Gamma Ray" false "/work" = Ok None.
Proof.
  destruct (absence_is_not_an_exception work false) as [Hload Hauto]. split.
  - apply (Hload _ "/work/gamma"); reflexivity.
  - apply Hauto. intros n Hn. vm_compute in Hn.
    repeat (apply elem_of_cons in Hn as [-> | Hn]; [reflexivity|]).
    by apply elem_of_nil in Hn.
Defined.

(** ** Frames: which attributes the steps of a load can change *)

(** Simplify lookups through chains of attribute assignments. *)
Ltac attr_simpl :=
  repeat first
    [ rewrite attrs_setattr
    | rewrite lookup_insert_eq
    | rewrite lookup_insert_ne by (done || congruence) ].

Lemma _get_org_ext (a b : instance) :
  attrs a !! "client" = attrs b !! "client" ->
  attrs a !! "business" = attrs b !! "business" ->
  Project._get_org a = Project._get_org b.
Proof.
  intros Hc Hb. unfold Project._get_org, getattr_default.
  by rewrite Hc, Hb.
Qed.

(** The attributes of a loaded project in terms of the state [s2] reached
    once the title is ensured. *)
Lemma load_attrs (w : World) (d : bool) (self self' : instance) (r : string)
    (ret : value) :
  attrs self !! "root" = Some (VStr r) -> path_exists w r = true ->
  Project.load w d self = Ok (self', ret) ->
  exists s2 root version,
    (forall k, k <> "title" -> attrs s2 !! k = attrs (after_config w self) !! k) /\
    attrs s2 !! "root" = Some (VStr root) /\ root <> "" /\
    attrs self' !! "org" = Some (Project._get_org s2) /\
    attrs self' !! "scm" = Some (VStr (scm_label w root)) /\
    attrs self' !! "is_dirty" =
      (if path_exists w (os_path_join root ".git")
       then Some (VBool (1 <=? (getstatusoutput w (Project.git_cmd root)).1)%Z)
       else attrs s2 !! "is_dirty") /\
    attrs self' !! "version" = Some (VStr version) /\
    (path_exists w (os_path_join root "VERSION.txt") = true ->
     exists content, read_file w (os_path_join root "VERSION.txt") = Some content
                     /\ version = strip content) /\
    (path_exists w (os_path_join root "VERSION.txt") = false ->
     version = "0.1.0-d") /\
    (forall k, k ∉ ["org"; "is_dirty"; "scm"; "version"; "disk"] ->
               attrs self' !! k = attrs s2 !! k).
Proof.
  intros Hr He H.
  destruct (load_inv _ _ _ _ _ _ Hr He H)
    as (title & s2 & scm & s3 & version & Ht & Hs2 & Hscm & Hver & Hd & _).
  apply _get_scm_Ok in Hscm as (root & Hroot & Hne & -> & ->).
  rewrite strip_scm_label in Hver, Hd.
  apply _get_version_Ok in Hver as (root' & Hroot' & _ & Hv1 & Hv0).
  assert (attrs s2 !! "root" = Some (VStr root)) as Hroot2.
  { revert Hroot. by attr_simpl. }
  assert (root' = root) as ->.
  { revert Hroot'. destruct (path_exists w (os_path_join root ".git"));
      attr_simpl; congruence. }
  exists s2, root, version.
  split.
  { intros k Hk. destruct (truthy title); [by subst|].
    destruct Hs2 as (name & _ & ->). by attr_simpl. }
  split; [done|]. split; [done|].
  set (s5 := setattr (setattr _ "scm" _) "version" _) in Hd.
  assert (forall k, k <> "disk" -> attrs self' !! k = attrs s5 !! k) as Hdisk.
  { intros k Hk. destruct d; [|by subst].
    destruct Hd as (disk & _ & ->). by attr_simpl. }
  repeat split.
  - rewrite Hdisk by done. unfold s5.
    destruct (path_exists w (os_path_join root ".git")); by attr_simpl.
  - rewrite Hdisk by done. unfold s5. by attr_simpl.
  - rewrite Hdisk by done. unfold s5.
    destruct (path_exists w (os_path_join root ".git")); by attr_simpl.
  - rewrite Hdisk by done. unfold s5. by attr_simpl.
  - done.
  - done.
  - intros k Hk. rewrite !not_elem_of_cons in Hk.
    destruct Hk as (? & ? & ? & ? & ? & _).
    rewrite Hdisk by done. unfold s5.
    destruct (path_exists w (os_path_join root ".git")); by attr_simpl.
Qed.

(** ** Organisation *)



(** ** Source control *)










(** Nor does a tree with uncommitted changes always load as dirty: on a
    machine without git the command substitution is empty, the test
    succeeds, and [alpha] loads with [is_dirty] false. *)
Lemma is_dirty_without_git :
  porcelain without_git "/work/alpha" = " M setup.py"
  /\ attrs (loaded (with_shell work without_git) alpha) !! "scm"
     = Some (VStr "git")
  /\ attrs (loaded (with_shell work without_git) alpha) !! "is_dirty"
     = Some (VBool false).
Proof. repeat split; by vm_compute. Qed.

(** ** Version and defaults *)

Lemma after_config_missing (w : World) (self : instance) :
  path_exists w (config_path self) = false -> after_config w self = self.
Proof. unfold after_config, Config.load. by intros ->. Qed.

Lemma not_written (k : string) :
  k ∉ ["org"; "is_dirty"; "scm"; "version"; "disk"] <->
  k <> "org" /\ k <> "is_dirty" /\ k <> "scm" /\ k <> "version" /\ k <> "disk".
Proof.
  rewrite !not_elem_of_cons. split.
  - intros (? & ? & ? & ? & ? & _). done.
  - intros (? & ? & ? & ? & ?). repeat split; try done. apply not_elem_of_nil.
Qed.

(** The attributes of a fresh project of a directory without [project.ini]. *)
Lemma init_without_config (w : World) (name D : string) (debug : bool) :
  path_exists w (os_path_join D "project.ini") = false ->
  let self := Project.__init__ w name D debug in
  config_path self = os_path_join D "project.ini" /\
  attrs self !! "root" = Some (VStr D) /\
  attrs self !! "config_exists" = Some (VBool false) /\
  attrs self !! "status" = Some (VStr "unknown") /\
  attrs self !! "type" = Some (VStr "project").
Proof.
  intros Hini. unfold Project.__init__. rewrite Hini. by vm_compute.
Qed.

(** C6, as the code has it.  The version of a loaded project is the trimmed
    content of [VERSION.txt] under its root when that file exists and
    "0.1.0-d" otherwise; a project loaded from a directory without
    [project.ini] has [config_exists] false, status "unknown" and type
    "project", and version "0.1.0-d" when it has no [VERSION.txt] either. *)
Theorem version_and_defaults (w : World) (d : bool) :
  (forall (self self' : instance) (r : string) (ret : value),
     attrs self !! "root" = Some (VStr r) -> path_exists w r = true ->
     Project.load w d self = Ok (self', ret) ->
     exists root version,
       attrs self' !! "root" = Some (VStr root) /\
       attrs self' !! "version" = Some (VStr version) /\
       (path_exists w (os_path_join root "VERSION.txt") = true ->
        exists content,
          read_file w (os_path_join root "VERSION.txt") = Some content /\
          version = strip content) /\
       (path_exists w (os_path_join root "VERSION.txt") = false ->
        version = "0.1.0-d"))
  /\
  (forall (name D : string) (self' : instance) (ret : value),
     path_exists w D = true ->
     path_exists w (os_path_join D "project.ini") = false ->
     Project.load w d (Project.__init__ w name D false) = Ok (self', ret) ->
     attrs self' !! "config_exists" = Some (VBool false) /\
     attrs self' !! "status" = Some (VStr "unknown") /\
     attrs self' !! "type" = Some (VStr "project") /\
     (path_exists w (os_path_join D "VERSION.txt") = false ->
      attrs self' !! "version" = Some (VStr "0.1.0-d"))).
Proof.
  split.
  - intros self self' r ret Hr He H.
    destruct (load_attrs _ _ _ _ _ _ Hr He H)
      as (s2 & root & version & _ & Hroot & _ & _ & _ & _ & Hver & Hv1 & Hv0
          & Hframe).
    exists root, version. rewrite Hframe by (by apply not_written). done.
  - intros name D self' ret He Hini H.
    destruct (init_without_config w name D false Hini)
      as (Hcp & Hr & Hce & Hst & Hty).
    destruct (load_attrs _ _ _ _ _ _ Hr He H)
      as (s2 & root & version & Hs2 & Hroot & _ & _ & _ & _ & Hver & _ & Hv0
          & Hframe).
    rewrite after_config_missing in Hs2 by (by rewrite Hcp).
    rewrite !Hframe by (by apply not_written).
    rewrite !Hs2 by done.
    repeat split; try done.
    intros Hv. rewrite Hver. rewrite Hs2, Hr in Hroot by done.
    injection Hroot as <-. by rewrite (Hv0 Hv).
Qed.

Lemma version_and_defaults_witness :
  attrs (loaded work alpha) !! "version" = Some (VStr "1.4.0")
  /\ attrs (loaded work beta) !! "status" = Some (VStr "unknown").
Proof.
  destruct (version_and_defaults work false) as [Hversion Hdefaults]. split.
  - destruct (Hversion alpha (loaded work alpha) "/work/alpha" (VBool true))
      as (root & version & Hroot & Hv & Hfile & _);
      [reflexivity | reflexivity | by vm_compute |].
    vm_compute in Hroot. injection Hroot as <-.
    destruct Hfile as (content & Hc & ->); [reflexivity|].
    vm_compute in Hc. injection Hc as <-. exact Hv.
  - destruct (Hdefaults "beta" "/work/beta" (loaded work beta) (VBool false))
      as (_ & Hstatus & _); [reflexivity | reflexivity | by vm_compute |].
    exact Hstatus.
Defined.

(** C6 as stated fails: a directory without [project.ini] that holds a
    [VERSION.txt] loads with that file's version, not the default. *)
Lemma version_default_counterexample :
  ~ (forall (w : World) (d : bool) (name D : string) (self' : instance)
       (ret : value),
       path_exists w D = true ->
       path_exists w (os_path_join D "project.ini") = false ->
       Project.load w d (Project.__init__ w name D false) = Ok (self', ret) ->
       attrs self' !! "config_exists" = Some (VBool false) /\
       attrs self' !! "status" = Some (VStr "unknown") /\
       attrs self' !! "type" = Some (VStr "project") /\
       attrs self' !! "version" = Some (VStr "0.1.0-d")).
Proof.
  intros claim.
  destruct (claim work false "beta" "/work/beta" (loaded work beta) (VBool false))
    as (_ & _ & _ & Hv); [reflexivity | reflexivity | by vm_compute |].
  vm_compute in Hv. discriminate Hv.
Qed.

(** ** The configuration load as an overlay *)

Lemma fold_assign_union (l : list (string * value)) (m : gmap string value) :
  fold_left assign l m = fold_left assign l ∅ ∪ m.
Proof.
  revert m. induction l as [|[k v] l IH]; intros m; cbn [fold_left].
  - by rewrite (left_id_L ∅ (∪)).
  - rewrite (IH (assign m (k, v))), (IH (assign ∅ (k, v))).
    unfold assign; cbn [fst snd].
    rewrite <- (assoc_L (∪)). f_equal.
    rewrite <- insert_union_l. by rewrite (left_id_L ∅ (∪)).
Qed.

Lemma fold_project_keys (values : list (string * atom)) (self : instance) :
  let self' := fold_left (fun o kv => setattr o kv.1 (VAtom kv.2)) values self in
  attrs self' = fold_left assign (map (fun kv => (kv.1, VAtom kv.2)) values)
                  (attrs self)
  /\ config_path self' = config_path self.
Proof.
  revert self. induction values as [|kv values IH]; intros self; [done|].
  cbn [fold_left map]. destruct (IH (setattr self kv.1 (VAtom kv.2))) as [-> ->].
  done.
Qed.

Lemma fold_sections (sections : list (string * list (string * atom)))
    (self : instance) :
  let self' := fold_left (fun o s => Project._load_section o s.1 s.2)
                 sections self in
  attrs self' = fold_left assign (flat_map section_assignments sections)
                  (attrs self)
  /\ config_path self' = config_path self.
Proof.
  revert self. induction sections as [|s sections IH]; intros self; [done|].
  cbn [fold_left flat_map]. rewrite fold_left_app.
  destruct (IH (Project._load_section self s.1 s.2)) as [-> ->].
  unfold Project._load_section, section_assignments.
  destruct (String.eqb s.1 "project").
  - by destruct (fold_project_keys s.2 self) as [-> ->].
  - done.
Qed.

Lemma after_config_attrs (w : World) (self : instance) :
  attrs (after_config w self)
  = config_writes w (config_path self) ∪ attrs self.
Proof.
  unfold after_config, Config.load, config_writes.
  destruct (path_exists w (config_path self)); cbn [negb fst];
    [|by rewrite (left_id_L ∅ (∪))].
  destruct (ini_sections w (config_path self)) as [sections|]; cbn [fst];
    [|by rewrite (left_id_L ∅ (∪))].
  rewrite attrs_setattr. destruct (fold_sections sections self) as [-> _].
  rewrite fold_assign_union. by rewrite insert_union_l.
Qed.

Lemma after_config_path (w : World) (self : instance) :
  config_path (after_config w self) = config_path self.
Proof.
  unfold after_config, Config.load.
  destruct (path_exists w (config_path self)); cbn [negb fst]; [|done].
  destruct (ini_sections w (config_path self)) as [sections|]; cbn [fst];
    [|done].
  rewrite config_path_setattr. by destruct (fold_sections sections self).
Qed.

Lemma after_config_keeps (w : World) (self : instance) (k : string) :
  is_Some (attrs self !! k) -> is_Some (attrs (after_config w self) !! k).
Proof.
  intros [v Hv]. rewrite after_config_attrs.
  destruct (config_writes w (config_path self) !! k) as [v'|] eqn:Hw.
  - exists v'. by apply lookup_union_Some_l.
  - exists v. by rewrite lookup_union_r.
Qed.

(** ** Attributes are never removed *)

Lemma setattr_keeps (self : instance) (k k' : string) (v : value) :
  is_Some (attrs self !! k) -> is_Some (attrs (setattr self k' v) !! k).
Proof.
  intros Hk. rewrite attrs_setattr, lookup_insert_is_Some.
  destruct (decide (k' = k)); auto.
Qed.

Lemma load_keeps (w : World) (d : bool) (self self' : instance) (ret : value)
    (k : string) :
  Project.load w d self = Ok (self', ret) ->
  is_Some (attrs self !! k) -> is_Some (attrs self' !! k).
Proof.
  intros H Hk.
  assert (exists r, attrs self !! "root" = Some (VStr r)) as [r Hr].
  { unfold Project.load in H. bind_inv H. bind_inv H.
    apply getattr_Ok in E. apply as_path_Ok in E0. subst. eauto. }
  destruct (path_exists w r) eqn:He.
  - destruct (load_inv _ _ _ _ _ _ Hr He H)
      as (title & s2 & scm & s3 & version & _ & Hs2 & Hscm & _ & Hd & _).
    apply _get_scm_Ok in Hscm as (root & _ & _ & -> & ->).
    assert (is_Some (attrs s2 !! k)) as Hk2.
    { destruct (truthy title).
      - subst. by apply after_config_keeps.
      - destruct Hs2 as (name & _ & ->). by apply setattr_keeps, after_config_keeps. }
    destruct d; [destruct Hd as (disk & _ & ->) | subst self'];
      destruct (path_exists w (os_path_join root ".git"));
      by repeat apply setattr_keeps.
  - rewrite (load_missing _ _ _ _ Hr He) in H. inversion H.
    by apply setattr_keeps.
Qed.

Lemma init_config_exists (w : World) (name root : string) (debug : bool) :
  is_Some (attrs (Project.__init__ w name root debug) !! "config_exists").
Proof.
  unfold Project.__init__.
  destruct (path_exists w (os_path_join root "project.ini"));
    eexists; by vm_compute.
Qed.

(** ** Discovery with criteria *)

Lemma criteria_loop_ok (p : instance) (items : list (string * atom))
    (acc : list instance) :
  (forall f s, (f, s) ∈ items -> is_Some (attrs p !! f)) ->
  criteria_loop p items acc
  = Ok (acc ++ replicate (length (matching items p)) p)%list.
Proof.
  revert acc. induction items as [|[f s] items IH]; intros acc Hfields.
  - cbn. by rewrite app_nil_r.
  - destruct (Hfields f s) as [v Hv]; [apply list_elem_of_here|].
    cbn [criteria_loop]. rewrite (getattr_lookup _ _ _ Hv). cbn [bind].
    unfold matching. cbn [List.filter fst snd]. unfold getattr_default at 1.
    rewrite Hv. cbn [default from_option id].
    assert (forall f s, (f, s) ∈ items -> is_Some (attrs p !! f)) as Hrest.
    { intros f' s' Hin. apply (Hfields f' s'). by apply list_elem_of_further. }
    destruct (py_eq s v).
    + rewrite (IH _ Hrest). cbn [length replicate].
      by rewrite <- app_assoc.
    + by rewrite (IH _ Hrest).
Qed.

Lemma load_entries_config_exists (w : World) (path : string) (d : bool)
    (entries : list string) (ps : list instance) :
  load_entries w path d entries = Ok ps ->
  forall p, p ∈ ps -> is_Some (attrs p !! "config_exists").
Proof.
  revert ps. induction entries as [|e entries IH]; intros ps H p Hp.
  - inversion H. subst. by apply elem_of_nil in Hp.
  - cbn [load_entries] in H.
    destruct (path_isdir w (os_path_join path e)); [|by apply (IH ps)].
    bind_inv H. destruct a as [q ret]. bind_inv H. inversion H. subst.
    apply elem_of_cons in Hp as [-> | Hp]; [|by apply (IH a)].
    eapply load_keeps; [exact E|]. apply init_config_exists.
Qed.

Lemma get_projects_loop_criteria (w : World) (path : string)
    (criteria : list (string * atom)) (d show_all : bool)
    (entries : list string) (ps acc : list instance) :
  criteria <> [] ->
  load_entries w path d entries = Ok ps ->
  (forall p, p ∈ ps -> visible show_all p = true ->
     forall f s, (f, s) ∈ criteria -> is_Some (attrs p !! f)) ->
  get_projects_loop w path (Some criteria) d show_all entries [] acc
  = Ok (acc ++ flat_map (fun p => replicate (length (matching criteria p)) p)
                 (List.filter (visible show_all) ps))%list.
Proof.
  intros Hne. revert ps acc.
  induction entries as [|e entries IH]; intros ps acc Hload Hfields.
  - inversion Hload. cbn. by rewrite app_nil_r.
  - cbn [get_projects_loop load_entries] in *.
    destruct (path_isdir w (os_path_join path e)); cbn [negb];
      [|by apply IH].
    rewrite bool_decide_eq_false_2 by apply not_elem_of_nil.
    bind_inv Hload. destruct a as [p ret]. bind_inv Hload.
    inversion Hload; subst ps; clear Hload. rename a into ps.
    rewrite E. cbn [bind].
    destruct (load_keeps _ _ _ _ _ "config_exists" E
                (init_config_exists _ _ _ _)) as [ce Hce].
    rewrite (getattr_lookup _ _ _ Hce). cbn [bind List.filter].
    assert (visible show_all p = truthy ce || show_all) as Hvis.
    { unfold visible, getattr_default. by rewrite Hce. }
    assert (forall q, q ∈ ps -> visible show_all q = true ->
              forall f s, (f, s) ∈ criteria -> is_Some (attrs q !! f)) as Hrest.
    { intros q Hq. apply Hfields. by apply list_elem_of_further. }
    destruct (visible show_all p) eqn:Hp.
    + replace (negb (truthy ce) && negb show_all) with false
        by (destruct (truthy ce), show_all; done).
      replace (criteria_truthy (Some criteria)) with true
        by (by destruct criteria).
      cbn [default from_option id].
      rewrite criteria_loop_ok
        by (apply (Hfields p); [apply list_elem_of_here | done]).
      cbn [bind flat_map]. rewrite (IH ps _ E0 Hrest). by rewrite <- app_assoc.
    + replace (negb (truthy ce) && negb show_all) with true
        by (destruct (truthy ce), show_all; done).
      by apply IH.
Qed.

(** C1.  With a non-empty criteria mapping, every loaded project that
    passes the visibility filter is appended once for each criterion whose
    expected value equals the project's attribute of that name: a project
    meeting [k] criteria appears [k] times (and so appears at all as soon
    as one criterion matches).  The hypotheses say that the call does not
    raise: the directory can be listed, every sub directory loads, and the
    criteria name attributes the visible projects have. *)
Theorem get_projects_criteria (w : World) (path : string)
    (criteria : list (string * atom)) (include_disk show_all : bool)
    (entries : list string) (ps : list instance) :
  criteria <> [] ->
  listdir w path = Some entries ->
  load_entries w path include_disk entries = Ok ps ->
  (forall p, p ∈ ps -> visible show_all p = true ->
     forall f s, (f, s) ∈ criteria -> is_Some (attrs p !! f)) ->
  get_projects w path (Some criteria) include_disk show_all
  = Ok (flat_map (fun p => replicate (length (matching criteria p)) p)
          (List.filter (visible show_all) ps)).
Proof.
  intros Hne Hls Hload Hfields. unfold get_projects. rewrite Hls.
  by rewrite (get_projects_loop_criteria _ _ _ _ _ _ ps []).
Qed.

Lemma get_projects_criteria_witness :
  get_projects work "/work"
    (Some [("status", AStr "active"); ("org", AStr "ACME");
           ("type", AStr "library")]) false true
  = Ok [loaded work alpha; loaded work alpha].
Proof.
  rewrite (get_projects_criteria work "/work" _ false true
             ["alpha"; "beta"; "notes.txt"]
             [loaded work alpha; loaded work beta]).
  - by vm_compute.
  - discriminate.
  - reflexivity.
  - by vm_compute.
  - intros p Hp _ f s Hfs.
    repeat (apply elem_of_cons in Hfs as [[= -> ->] | Hfs]);
      [| | |by apply elem_of_nil in Hfs];
      repeat (apply elem_of_cons in Hp as [-> | Hp]);
      try (by apply elem_of_nil in Hp); eexists; by vm_compute.
Defined.

(** ** Autoloading by name *)

Lemma autoload_from_first (w : World) (d : bool) (path : string)
    (before after : list string) (c : string) :
  (forall n, n ∈ before -> path_exists w (os_path_join path n) = false) ->
  path_exists w (os_path_join path c) = true ->
  autoload_from w d path (before ++ c :: after)
  = (let* (p, _) := Project.load w d
                      (Project.__init__ w c (os_path_join path c) false) in
     Ok (Some p)).
Proof.
  intros Hbefore Hc. induction before as [|n before IH]; cbn [app autoload_from].
  - by rewrite Hc.
  - rewrite Hbefore by apply list_elem_of_here.
    apply IH. intros n' Hn'. apply Hbefore. by apply list_elem_of_further.
Qed.

(** C10.  [autoload_project] lowercases the name and tries four candidate
    directory names in order (the lowercased name, dots replaced by
    underscores, spaces by hyphens, spaces by underscores); for the first
    candidate whose path exists under the search path it constructs a
    [Project] of that name and path, loads it and returns it. *)
Theorem autoload_project_candidates (w : World) (name : string) (d : bool)
    (path : string) :
  autoload_names name
  = [ lower name; replace "." "_" (lower name); replace " " "-" (lower name);
      replace " " "_" (lower name) ]
  /\
  (forall (before after : list string) (c : string),
     autoload_names name = (before ++ c :: after)%list ->
     (forall n, n ∈ before -> path_exists w (os_path_join path n) = false) ->
     path_exists w (os_path_join path c) = true ->
     autoload_project w name d path
     = (let* (p, _) := Project.load w d
                         (Project.__init__ w c (os_path_join path c) false) in
        Ok (Some p))).
Proof.
  split; [reflexivity|].
  intros before after c Hnames Hbefore Hc.
  unfold autoload_project. rewrite Hnames. by apply autoload_from_first.
Qed.

Lemma autoload_project_candidates_witness :
  autoload_project srv "My Site" false "/srv" = Ok (Some (loaded srv my_site)).
Proof.
  destruct (autoload_project_candidates srv "My Site" false "/srv")
    as [_ Hfirst].
  rewrite (Hfirst ["my site"; "my site"] ["my_site"] "my-site").
  - by vm_compute.
  - reflexivity.
  - intros n Hn.
    repeat (apply elem_of_cons in Hn as [-> | Hn]; [reflexivity|]).
    by apply elem_of_nil in Hn.
  - reflexivity.
Defined.

(** ** Dependencies *)

Lemma fold_append_map {A B : Type} (f : A -> B) (l : list A) (acc : list B) :
  fold_left (fun a x => (a ++ [f x])%list) l acc = (acc ++ map f l)%list.
Proof.
  revert acc. induction l as [|x l IH]; intros acc; cbn [fold_left map].
  - by rewrite app_nil_r.
  - rewrite IH. by rewrite <- app_assoc.
Qed.

(** What [get_dependencies] computes: the six pairs of every candidate
    manifest that exists, one manifest after the other. *)
Lemma get_dependencies_all (w : World) (self : instance) (root : string) :
  attrs self !! "root" = Some (VStr root) -> root <> "" ->
  is_Some (attrs self !! "debug") ->
  Project.get_dependencies w self
  = Ok (flat_map
          (fun i => if path_exists w (os_path_join root i)
                    then environment_entries w (os_path_join root i)
                    else [])
          Project.locations).
Proof.
  intros Hr Hne [dbg Hdbg]. unfold Project.get_dependencies.
  match goal with
  | |- fold_left ?F _ _ = Ok (flat_map ?G _) =>
      set (body := F); set (entries := G);
      enough (forall locs acc,
                fold_left body locs (Ok acc)
                = Ok (acc ++ flat_map entries locs)%list)
        as Hloop by apply (Hloop _ [])
  end.
  assert (forall i acc, body (Ok acc) i = Ok (acc ++ entries i)%list) as Hbody.
  { intros i acc. unfold body, entries. cbn [bind].
    rewrite (_file_exists_root _ _ _ _ Hr Hne). cbn [bind].
    destruct (path_exists w (os_path_join root i)); [|by rewrite app_nil_r].
    rewrite (_get_path_root _ _ _ Hr). cbn [bind].
    rewrite (getattr_lookup _ _ _ Hdbg). cbn [bind].
    unfold environment_entries, manifest.
    destruct (PackageConfig.load w _) as [config ok]. cbn [fst].
    by rewrite (fold_append_map
                  (fun env => (env, PackageConfig.get_packages config (Some env)))). }
  induction locs as [|i locs IH]; intros acc; cbn [fold_left flat_map].
  - by rewrite app_nil_r.
  - rewrite Hbody, IH. by rewrite <- app_assoc.
Qed.

(** With exactly one manifest on disk the result is the six pairs of that
    manifest, in the order of [ENVIRONMENTS]; with none it is empty. *)
Lemma get_dependencies_none (w : World) (self : instance) (root : string) :
  attrs self !! "root" = Some (VStr root) -> root <> "" ->
  is_Some (attrs self !! "debug") ->
  (forall i, i ∈ Project.locations -> path_exists w (os_path_join root i) = false) ->
  Project.get_dependencies w self = Ok [].
Proof.
  intros Hr Hne Hdbg Hnone. rewrite (get_dependencies_all _ _ _ Hr Hne Hdbg).
  f_equal. induction Project.locations as [|i locs IH]; [done|].
  cbn [flat_map]. rewrite Hnone by apply list_elem_of_here.
  apply IH. intros j Hj. apply Hnone. by apply list_elem_of_further.
Qed.

Lemma get_dependencies_length (w : World) (self : instance) (root : string)
    (deps : list (string * list Package)) :
  attrs self !! "root" = Some (VStr root) -> root <> "" ->
  is_Some (attrs self !! "debug") ->
  Project.get_dependencies w self = Ok deps ->
  length deps
  = 6 * length (List.filter (fun i => path_exists w (os_path_join root i))
                  Project.locations).
Proof.
  intros Hr Hne Hdbg. rewrite (get_dependencies_all _ _ _ Hr Hne Hdbg).
  generalize Project.locations. intros locs Heq.
  assert (Inj (=) (=) (@Ok (list (string * list Package)))) as Hinj
    by (intros x y; congruence).
  apply Hinj in Heq. subst deps.
  induction locs as [|i locs IH]; [reflexivity|].
  cbn [flat_map List.filter]. rewrite length_app, IH.
  destruct (path_exists w (os_path_join root i)); cbn [length]; [|lia].
  unfold environment_entries. rewrite length_map.
  change (length ENVIRONMENTS) with 6. lia.
Qed.

(** C2, the code at a project with two manifests.  [alpha] has both
    [deploy/requirements/packages.ini] and [requirements.ini]: the loop has
    no [break], so [get_dependencies] returns twelve pairs, the six
    environments once for each manifest, not six. *)
Theorem get_dependencies_two_manifests :
  exists deps,
    Project.get_dependencies work (loaded work alpha) = Ok deps
    /\ length deps = 12
    /\ map fst deps = (ENVIRONMENTS ++ ENVIRONMENTS)%list
    /\ deps = (environment_entries work
                 "/work/alpha/deploy/requirements/packages.ini"
               ++ environment_entries work "/work/alpha/requirements.ini")%list.
Proof. eexists. split; [by vm_compute|]. by vm_compute. Qed.

(** ** Requirements *)

Lemma get_requirements_from_find (w : World) (self : instance) (root : string)
    (env : option string) (locs : list string) :
  attrs self !! "root" = Some (VStr root) -> root <> "" ->
  is_Some (attrs self !! "debug") ->
  Project.get_requirements_from w self env locs
  = Ok (match List.find
                (fun i => path_exists w (os_path_join root i)
                          && manifest_loads w (os_path_join root i)) locs with
        | Some i => Some (PackageConfig.get_packages
                            (manifest w (os_path_join root i)) env)
        | None => None
        end).
Proof.
  intros Hr Hne [dbg Hdbg].
  induction locs as [|i locs IH]; cbn [Project.get_requirements_from List.find];
    [done|].
  rewrite (_file_exists_root _ _ _ _ Hr Hne). cbn [bind].
  destruct (path_exists w (os_path_join root i)); cbn [andb]; [|done].
  rewrite (_get_path_root _ _ _ Hr). cbn [bind].
  rewrite (getattr_lookup _ _ _ Hdbg). cbn [bind].
  unfold manifest_loads, manifest. cbv beta.
  destruct (PackageConfig.load w (PackageConfig.__init__ (os_path_join root i)))
    as [config ok] eqn:Hload.
  cbn [fst snd]. destruct ok; [by rewrite Hload | exact IH].
Qed.

(** C8, as the code has it.  [get_requirements] probes the candidate paths
    in their fixed order and uses the first one that exists and loads,
    returning its packages for the given environment (all of them when no
    environment is given); it returns [None] when no candidate exists and
    loads, in particular when no manifest file exists. *)
Theorem get_requirements_first_loadable (w : World) (self : instance)
    (root : string) (env : option string) :
  attrs self !! "root" = Some (VStr root) -> root <> "" ->
  is_Some (attrs self !! "debug") ->
  Project.get_requirements w self env
  = Ok (match List.find
                (fun i => path_exists w (os_path_join root i)
                          && manifest_loads w (os_path_join root i))
                [ "deploy/requirements/packages.ini";
                  "requirements/packages.ini"; "requirements.ini" ] with
        | Some i =>
            Some (PackageConfig.get_packages (manifest w (os_path_join root i)) env)
        | None => None
        end)
  /\ ((forall i, i ∈ Project.locations ->
         path_exists w (os_path_join root i) = false) ->
      Project.get_requirements w self env = Ok None).
Proof.
  intros Hr Hne Hdbg. unfold Project.get_requirements.
  rewrite (get_requirements_from_find _ _ _ _ _ Hr Hne Hdbg).
  change Project.locations with
    [ "deploy/requirements/packages.ini"; "requirements/packages.ini";
      "requirements.ini" ].
  split; [done|].
  intros Hnone. f_equal. cbn [List.find].
  by rewrite !Hnone by (apply (bool_decide_unpack _); by vm_compute).
Qed.

Lemma get_requirements_first_loadable_witness :
  Project.get_requirements srv (loaded srv webapp) (Some "base")
  = Ok (Some [ {| pkg_name := "flask"; pkg_env := "base" |} ])
  /\ Project.get_requirements srv (loaded srv my_site) None = Ok None.
Proof.
  split.
  - destruct (get_requirements_first_loadable srv (loaded srv webapp)
                "/srv/app" (Some "base")) as [-> _];
      [reflexivity | discriminate | eexists; by vm_compute |].
    by vm_compute.
  - destruct (get_requirements_first_loadable srv (loaded srv my_site)
                "/srv/my-site" None) as [_ Hnone];
      [reflexivity | discriminate | eexists; by vm_compute |].
    apply Hnone. intros i Hi. vm_compute in Hi.
    repeat (apply elem_of_cons in Hi as [-> | Hi]; [reflexivity|]).
    by apply elem_of_nil in Hi.
Defined.

(** C8 as stated fails: when the first manifest that exists cannot be
    loaded, the packages come from a later one. *)
Lemma get_requirements_counterexample :
  ~ (forall (w : World) (self : instance) (root : string) (env : option string),
       attrs self !! "root" = Some (VStr root) -> root <> "" ->
       is_Some (attrs self !! "debug") ->
       Project.get_requirements w self env
       = Ok (match List.find (fun i => path_exists w (os_path_join root i))
                     Project.locations with
             | Some i =>
                 Some (PackageConfig.get_packages
                         (manifest w (os_path_join root i)) env)
             | None => None
             end)).
Proof.
  intros claim.
  specialize (claim srv (loaded srv webapp) "/srv/app" None).
  assert (Project.get_requirements srv (loaded srv webapp) None
          = Ok (Some [ {| pkg_name := "flask"; pkg_env := "base" |} ])) as Hcode
    by (by vm_compute).
  rewrite Hcode in claim.
  specialize (claim eq_refl).
  assert (Ok (Some [ {| pkg_name := "flask"; pkg_env := "base" |} ])
          = @Ok (option (list Package)) (Some [])) as Habs.
  { apply claim; [discriminate | eexists; by vm_compute]. }
  discriminate Habs.
Qed.

(** ** Version bumps *)

Example bump_minor_scenario :
  (let* v := Version.__init__ "1.2.3" in
   let* v := Version.bump v false true false None None in
   Ok (Version.to_string v)) = Ok "1.3.0".
Proof. reflexivity. Qed.

Example bump_patch_scenario :
  (let* v := Version.__init__ "1.2.3-beta" in
   let* v := Version.bump v false false true None None in
   Ok (Version.to_string v)) = Ok "1.2.4-beta".
Proof. reflexivity. Qed.

Example bump_major_has_priority :
  (let* v := Version.__init__ "1.2.3" in
   let* v := Version.bump v true true true None None in
   Ok (Version.to_string v)) = Ok "2.0.0".
Proof. reflexivity. Qed.

Example bump_status_overrides :
  (let* v := Version.__init__ "1.2.3-beta" in
   let* v := Version.bump v false false true (Some "rc1") None in
   Ok (Version.to_string v)) = Ok "1.2.4-rc1".
Proof. reflexivity. Qed.

Lemma string_app_assoc (a b c : string) : (a +:+ b) +:+ c = a +:+ (b +:+ c).
Proof.
  induction a as [|x a IH]; [reflexivity|].
  change (String x ((a +:+ b) +:+ c) = String x (a +:+ (b +:+ c))).
  by rewrite IH.
Qed.

Lemma string_app_nil_r (a : string) : a +:+ "" = a.
Proof.
  induction a as [|x a IH]; [reflexivity|].
  change (String x (a +:+ "") = String x a). by rewrite IH.
Qed.

(** When a number is named, exactly that number is bumped (major before
    minor before patch), the bump function drops the labels, and the
    labels of the original are put back once. *)
Lemma bump_number_string (self : Version.t) (major minor patch : bool)
    (self' : Version.t) :
  major || minor || patch = true ->
  Version.bump self major minor patch None None = Ok self' ->
  exists v,
    semver.parse (Version._original self) = Some v /\
    Version._current self'
    = Some ((if major then semver.format_version (semver.major v + 1) 0 0
             else if minor
                  then semver.format_version (semver.major v) (semver.minor v + 1) 0
                  else semver.format_version (semver.major v) (semver.minor v)
                         (semver.patch v + 1))
            +:+ (if Version.given (semver.prerelease (Version.object self))
                 then "-" +:+ default "" (semver.prerelease (Version.object self))
                 else "")
            +:+ (if Version.given (semver.build (Version.object self))
                 then "+" +:+ default "" (semver.build (Version.object self))
                 else "")).
Proof.
  intros Hflag H. unfold Version.bump in H.
  bind_inv H. rename a into current. bind_inv H. inversion H; subst; clear H.
  cbn [Version._current Version.given].
  assert (exists v, semver.parse (Version._original self) = Some v /\
            current = if major then semver.format_version (semver.major v + 1) 0 0
                      else if minor
                           then semver.format_version (semver.major v)
                                  (semver.minor v + 1) 0
                           else semver.format_version (semver.major v)
                                  (semver.minor v) (semver.patch v + 1))
    as (v & Hv & ->).
  { unfold semver.bump_major, semver.bump_minor, semver.bump_patch in E.
    destruct (semver.parse (Version._original self)) as [v|].
    - exists v. split; [done|].
      destruct major; [by inversion E|]. destruct minor; [by inversion E|].
      destruct patch; [by inversion E | discriminate Hflag].
    - destruct major; [discriminate E|]. destruct minor; [discriminate E|].
      destruct patch; [discriminate E | discriminate Hflag]. }
  exists v. split; [done|]. f_equal.
  destruct (Version.given (semver.prerelease (Version.object self)));
    destruct (Version.given (semver.build (Version.object self)));
    by rewrite ?string_app_assoc, ?string_app_nil_r.
Qed.

(** C7, the code when no number is named.  With none of major, minor and
    patch given, [bump] starts from the whole original string, labels
    included, and appends the labels again: "1.2.3-beta" becomes
    "1.2.3-beta-beta" (prerelease "beta-beta"), a status is appended after
    the old prerelease instead of replacing it, and a version with a build
    label no longer parses. *)
Theorem bump_without_number_repeats_labels :
  (let* v := Version.__init__ "1.2.3-beta" in
   let* v := Version.bump v false false false None None in
   Ok (Version.to_string v, semver.prerelease (Version.object v)))
  = Ok ("1.2.3-beta-beta", Some "beta-beta")
  /\ (let* v := Version.__init__ "1.2.3-beta" in
      let* v := Version.bump v false false false (Some "rc1") None in
      Ok (Version.to_string v)) = Ok "1.2.3-beta-rc1"
  /\ (let* v := Version.__init__ "1.2.3+b7" in
      let* v := Version.bump v false false false None None in
      Ok (Version.to_string v)) = Raise ValueError.
Proof. repeat split; reflexivity. Qed.

(** ** A load is an overlay of its assignments *)

Lemma _get_disk_root (w : World) (s : instance) (root : string) :
  attrs s !! "root" = Some (VStr root) ->
  Project._get_disk w s = Ok (strip (getstatusoutput w (Project.du_cmd root)).2).
Proof.
  intros Hr. unfold Project._get_disk.
  rewrite (getattr_lookup _ _ _ Hr). cbn [bind as_path].
  by destruct (getstatusoutput w (Project.du_cmd root)).
Qed.

Lemma _get_version_root (w : World) (s : instance) (root : string) :
  attrs s !! "root" = Some (VStr root) -> root <> "" ->
  Project._get_version w s
  = if path_exists w (os_path_join root "VERSION.txt") then
      match read_file w (os_path_join root "VERSION.txt") with
      | Some v => Ok (strip v)
      | None => Raise IOError
      end
    else Ok "0.1.0-d".
Proof.
  intros Hr Hne. unfold Project._get_version.
  rewrite (_file_exists_root _ _ _ _ Hr Hne). cbn [bind].
  destruct (path_exists w (os_path_join root "VERSION.txt")); [|done].
  by rewrite (_get_path_root _ _ _ Hr).
Qed.

Lemma load_root (w : World) (d : bool) (self self' : instance) (ret : value) :
  Project.load w d self = Ok (self', ret) ->
  exists r, attrs self !! "root" = Some (VStr r).
Proof.
  intros H. unfold Project.load in H. bind_inv H. bind_inv H.
  apply getattr_Ok in E. apply as_path_Ok in E0. subst. eauto.
Qed.

(** From the code to the overlay. *)
Lemma load_writes_inv (w : World) (d : bool) (self self' : instance)
    (r : string) (ret : value) :
  attrs self !! "root" = Some (VStr r) -> path_exists w r = true ->
  Project.load w d self = Ok (self', ret) ->
  exists W,
    writes w d (after_config w self) = Ok W /\
    attrs self' = W ∪ attrs (after_config w self) /\
    config_path self' = config_path self /\
    attrs self' !! "is_loaded" = Some ret.
Proof.
  intros Hr He H.
  destruct (load_inv _ _ _ _ _ _ Hr He H)
    as (title & s2 & scm & s3 & version & Ht & Hs2 & Hscm & Hver & Hd & Hret).
  pose proof (after_config_path w self) as Hcp.
  set (x := after_config w self) in *.
  assert (exists tv, title_value x = Ok tv /\
            attrs s2 = <["title":=tv]> (attrs x) /\
            config_path s2 = config_path x) as (tv & Htv & Ha2 & Hc2).
  { unfold title_value. rewrite Ht. cbn [bind]. destruct (truthy title).
    - exists title. subst s2. split; [done|]. split; [|done].
      symmetry. apply insert_id. by apply getattr_Ok.
    - destruct Hs2 as (name & Hn & ->). exists name. by rewrite Hn. }
  apply _get_scm_Ok in Hscm as (root & Hroot & Hne & -> & ->).
  rewrite strip_scm_label in Hver, Hd.
  assert (attrs x !! "root" = Some (VStr root)) as Hrootx.
  { revert Hroot. rewrite attrs_setattr, Ha2. by attr_simpl. }
  rewrite (_get_version_root _ _ root) in Hver;
    [| by destruct (path_exists w (os_path_join root ".git")); attr_simpl;
          rewrite Ha2; attr_simpl
     | done].
  assert (Project._get_org s2 = Project._get_org x) as Horg.
  { apply _get_org_ext; rewrite Ha2; by attr_simpl. }
  rewrite Horg in Hd.
  eexists. split; [|split; [|split]].
  - unfold writes. rewrite Htv. cbn [bind].
    rewrite (getattr_lookup _ _ _ Hrootx). cbn [bind].
    apply truthy_VStr in Hne. rewrite Hne. cbn [negb as_path bind].
    rewrite Hver. cbn [bind]. reflexivity.
  - destruct d.
    + destruct Hd as (disk & Hdisk & ->).
      rewrite (_get_disk_root _ _ root) in Hdisk;
        [| by destruct (path_exists w (os_path_join root ".git")); attr_simpl;
              rewrite Ha2; attr_simpl].
      injection Hdisk as <-.
      destruct (path_exists w (os_path_join root ".git"));
        rewrite !attrs_setattr, Ha2;
        by rewrite <- !insert_union_l, (left_id_L ∅ (∪)).
    + subst self'.
      destruct (path_exists w (os_path_join root ".git"));
        rewrite !attrs_setattr, Ha2;
        by rewrite <- !insert_union_l, (left_id_L ∅ (∪)).
  - rewrite <- Hcp, <- Hc2. destruct d; [destruct Hd as (disk & _ & ->)|subst];
      by destruct (path_exists w (os_path_join root ".git")).
  - by apply getattr_Ok.
Qed.

(** From the overlay back to the code. *)
Lemma load_writes_run (w : World) (d : bool) (self : instance) (r : string)
    (W : gmap string value) (ret : value) :
  attrs self !! "root" = Some (VStr r) -> path_exists w r = true ->
  writes w d (after_config w self) = Ok W ->
  (W ∪ attrs (after_config w self)) !! "is_loaded" = Some ret ->
  Project.load w d self
  = Ok ({| attrs := W ∪ attrs (after_config w self);
           config_path := config_path self |}, ret).
Proof.
  intros Hr He HW Hret.
  pose proof (after_config_path w self) as Hcp. rewrite <- Hcp. clear Hcp.
  unfold Project.load.
  rewrite (getattr_lookup _ _ _ Hr). cbn [bind as_path]. rewrite He. cbn [negb].
  unfold after_config in *.
  destruct (Config.load w Project._load_section self) as [x ok].
  cbn [fst] in *. clear ok.
  unfold writes in HW.
  bind_inv HW. rename a into tv, E into Htv.
  bind_inv HW. rename a into rootv, E into Hrootv.
  destruct (truthy rootv) eqn:Htruthy; cbn [negb] in HW; [|discriminate].
  bind_inv HW. rename a into root. apply as_path_Ok in E. subst rootv.
  bind_inv HW. rename a into version, E into Hver.
  apply getattr_Ok in Hrootv. apply truthy_VStr in Htruthy.
  injection HW as HW.
  (* the title *)
  unfold title_value in Htv. bind_inv Htv. rename a into title, E into Ht.
  rewrite Ht. cbn [bind].
  assert (exists s2,
            (if negb (truthy title)
             then let* name := getattr x "name" in Ok (setattr x "title" name)
             else Ok x) = Ok s2 /\
            attrs s2 = <["title":=tv]> (attrs x) /\
            config_path s2 = config_path x) as (s2 & -> & Ha2 & Hc2).
  { destruct (truthy title); cbn [negb].
    - injection Htv as <-. exists x. split; [done|]. split; [|done].
      symmetry. apply insert_id. by apply getattr_Ok.
    - rewrite Htv. by eexists. }
  cbn [bind].
  assert (attrs s2 !! "root" = Some (VStr root)) as Hroot2.
  { rewrite Ha2. by attr_simpl. }
  assert (Project._get_org s2 = Project._get_org x) as ->.
  { apply _get_org_ext; rewrite Ha2; by attr_simpl. }
  rewrite (_get_scm_root _ _ root) by (by attr_simpl).
  cbn [bind]. rewrite strip_scm_label.
  rewrite (_get_version_root _ _ root);
    [| by destruct (path_exists w (os_path_join root ".git")); attr_simpl
     | done].
  rewrite Hver. cbn [bind].
  match goal with
  | |- bind ?m _ = _ =>
      assert (m = Ok {| attrs := W ∪ attrs x; config_path := config_path x |})
        as ->
  end.
  { destruct d.
    - rewrite (_get_disk_root _ _ root)
        by (by destruct (path_exists w (os_path_join root ".git")); attr_simpl).
      cbn [bind]. f_equal. subst W.
      destruct (path_exists w (os_path_join root ".git"));
        unfold setattr; cbn [attrs config_path]; rewrite Ha2, Hc2; f_equal;
        by rewrite <- !insert_union_l, (left_id_L ∅ (∪)).
    - f_equal. subst W.
      destruct (path_exists w (os_path_join root ".git"));
        unfold setattr; cbn [attrs config_path]; rewrite Ha2, Hc2; f_equal;
        by rewrite <- !insert_union_l, (left_id_L ∅ (∪)). }
  cbn [bind]. unfold getattr. cbn [attrs]. by rewrite Hret.
Qed.

(** ** Loading twice *)

Lemma overlay_twice (M W a : gmap string value) (k : string) :
  W !! k = None -> (M ∪ (W ∪ (M ∪ a))) !! k = (M ∪ a) !! k.
Proof.
  intros HW. rewrite !lookup_union, HW.
  by destruct (M !! k), (a !! k).
Qed.

Lemma overlay_absorb (M W a : gmap string value) :
  W ∪ (M ∪ (W ∪ (M ∪ a))) = W ∪ (M ∪ a).
Proof.
  apply map_eq. intros k. rewrite !lookup_union.
  by destruct (W !! k), (M !! k), (a !! k).
Qed.

(** The assignments only depend on the title the load ends with and on the
    root, client and business attributes. *)
Lemma writes_ext (w : World) (d : bool) (x y : instance) :
  title_value y = title_value x ->
  attrs y !! "root" = attrs x !! "root" ->
  attrs y !! "client" = attrs x !! "client" ->
  attrs y !! "business" = attrs x !! "business" ->
  writes w d y = writes w d x.
Proof.
  intros Ht Hr Hc Hb. unfold writes, getattr.
  by rewrite Ht, Hr, (_get_org_ext y x Hc Hb).
Qed.

Lemma writes_keys (w : World) (d : bool) (x : instance)
    (W : gmap string value) :
  writes w d x = Ok W ->
  exists tv root,
    title_value x = Ok tv /\ W !! "title" = Some tv /\
    attrs x !! "root" = Some (VStr root) /\
    (forall k, k ∉ ["title"; "org"; "is_dirty"; "scm"; "version"; "disk"] ->
               W !! k = None).
Proof.
  unfold writes. intros HW.
  bind_inv HW. rename a into tv. bind_inv HW. rename a into rootv.
  destruct (truthy rootv); cbn [negb] in HW; [|discriminate].
  bind_inv HW. apply as_path_Ok in E1. subst rootv. rename a into root.
  bind_inv HW. injection HW as <-.
  exists tv, root. split; [done|]. split; [|split; [by apply getattr_Ok|]].
  - destruct d, (path_exists w (os_path_join root ".git")); by attr_simpl.
  - intros k Hk. rewrite !not_elem_of_cons in Hk.
    destruct Hk as (? & ? & ? & ? & ? & ? & _).
    destruct d, (path_exists w (os_path_join root ".git"));
      by rewrite ?lookup_insert_ne, lookup_empty by done.
Qed.

(** The title a second load ends with is the one the first ended with. *)
Lemma title_value_twice (M W a : gmap string value) (cp : string) (tv : value) :
  title_value {| attrs := M ∪ a; config_path := cp |} = Ok tv ->
  W !! "title" = Some tv -> W !! "name" = None ->
  title_value {| attrs := M ∪ (W ∪ (M ∪ a)); config_path := cp |} = Ok tv.
Proof.
  unfold title_value, getattr. cbn [attrs]. intros Htv Ht Hn.
  rewrite (overlay_twice M W a "name" Hn).
  rewrite !lookup_union, Ht in *.
  destruct (M !! "title") as [tm|], (a !! "title") as [t|];
    cbn [union option_union union_with option_union_with bind] in *;
    try exact Htv; try discriminate Htv.
  destruct (truthy t) eqn:Htruthy.
  - injection Htv as ->. by rewrite Htruthy.
  - destruct (truthy tv); [done | exact Htv].
Qed.

Lemma title_value_attrs (s s' : instance) :
  attrs s = attrs s' -> title_value s = title_value s'.
Proof. unfold title_value, getattr. by intros ->. Qed.

(** A second load changes nothing, as long as the root the first load left
    behind still exists whenever the original one did. *)
Lemma load_twice (w : World) (d : bool) (self self1 : instance) (ret1 : value) :
  Project.load w d self = Ok (self1, ret1) ->
  (forall r0 r1, attrs self !! "root" = Some (VStr r0) ->
                 path_exists w r0 = true ->
                 attrs self1 !! "root" = Some (VStr r1) ->
                 path_exists w r1 = true) ->
  Project.load w d self1 = Ok (self1, ret1).
Proof.
  intros H Hstill. destruct (load_root _ _ _ _ _ H) as [r0 Hr0].
  destruct (path_exists w r0) eqn:He.
  - destruct (load_writes_inv _ _ _ _ _ _ Hr0 He H)
      as (W & HW & Ha1 & Hc1 & Hret).
    destruct (writes_keys _ _ _ _ HW) as (tv & root & Htv & HWt & Hrx & HWnone).
    pose proof (after_config_attrs w self) as Hx.
    pose proof (after_config_attrs w self1) as Hy.
    pose proof (after_config_path w self1) as Hcy.
    rewrite Hc1, Ha1, Hx in Hy.
    set (M := config_writes w (config_path self)) in *.
    assert (forall k, k ∈ ["name"; "root"; "client"; "business"] ->
                      W !! k = None) as Hfree.
    { intros k Hk. apply HWnone.
      repeat (apply elem_of_cons in Hk as [-> | Hk];
              [apply (bool_decide_unpack _); by vm_compute|]).
      by apply elem_of_nil in Hk. }
    assert (forall k, k ∈ ["name"; "root"; "client"; "business"] ->
              attrs (after_config w self1) !! k
              = attrs (after_config w self) !! k) as Hsame.
    { intros k Hk. rewrite Hy, Hx. apply overlay_twice. by apply Hfree. }
    assert (attrs self1 !! "root" = Some (VStr root)) as Hr1.
    { rewrite Ha1, lookup_union_r; [done|].
      apply Hfree. apply (bool_decide_unpack _). by vm_compute. }
    assert (writes w d (after_config w self1) = Ok W) as HW1.
    { rewrite <- HW. apply writes_ext.
      - rewrite Htv.
        rewrite (title_value_attrs _
                   {| attrs := M ∪ (W ∪ (M ∪ attrs self));
                      config_path := config_path self |}) by done.
        apply title_value_twice.
        + rewrite <- Htv. apply title_value_attrs. cbn [attrs]. by rewrite Hx.
        + done.
        + apply Hfree. apply (bool_decide_unpack _). by vm_compute.
      - apply Hsame. apply (bool_decide_unpack _). by vm_compute.
      - apply Hsame. apply (bool_decide_unpack _). by vm_compute.
      - apply Hsame. apply (bool_decide_unpack _). by vm_compute. }
    assert (W ∪ attrs (after_config w self1) = attrs self1) as Hfinal.
    { rewrite Hy, Ha1, Hx. apply overlay_absorb. }
    rewrite (load_writes_run w d self1 root W ret1 Hr1
               (Hstill r0 root Hr0 He Hr1) HW1)
      by (by rewrite Hfinal).
    rewrite Hfinal. by destruct self1.
  - rewrite (load_missing _ _ _ _ Hr0 He) in H. injection H as <- <-.
    rewrite (load_missing _ _ _ r0); [| by attr_simpl | done].
    unfold setattr. cbn [attrs config_path]. by rewrite insert_insert_eq.
Qed.

(** ** Methods hidden by attributes *)

Lemma method_inv (self : instance) (m : string) (u : unit) :
  method self m = Ok u -> attrs self !! m = None.
Proof. unfold method. by destruct (attrs self !! m). Qed.

Lemma method_None (self : instance) (m : string) :
  attrs self !! m = None -> method self m = Ok tt.
Proof. unfold method. by intros ->. Qed.

Lemma Call_file_exists_run (w : World) (s : instance) (name : string) :
  attrs s !! "_file_exists" = None ->
  Call._file_exists w s name = Project._file_exists w s name.
Proof. intros H. unfold Call._file_exists. by rewrite (method_None _ _ H). Qed.

Lemma Call_file_exists_inv (w : World) (s : instance) (name : string) (b : bool) :
  Call._file_exists w s name = Ok b ->
  attrs s !! "_file_exists" = None /\ Project._file_exists w s name = Ok b.
Proof.
  unfold Call._file_exists. intros H. bind_inv H. by apply method_inv in E.
Qed.

Lemma Call_get_scm_run (w : World) (s : instance) :
  attrs s !! "_get_scm" = None -> attrs s !! "_file_exists" = None ->
  Call._get_scm w s = Project._get_scm w s.
Proof.
  intros H1 H2. unfold Call._get_scm, Project._get_scm.
  rewrite (method_None _ _ H1). cbn [bind].
  by rewrite !Call_file_exists_run.
Qed.

Lemma Call_get_scm_inv (w : World) (s : instance) (out : string * instance) :
  Call._get_scm w s = Ok out ->
  attrs s !! "_get_scm" = None /\ attrs s !! "_file_exists" = None /\
  Project._get_scm w s = Ok out.
Proof.
  intros H. pose proof H as H0. unfold Call._get_scm in H0.
  bind_inv H0. apply method_inv in E. bind_inv H0.
  apply Call_file_exists_inv in E0 as [E0 _].
  repeat split; [done | done |]. by rewrite <- Call_get_scm_run.
Qed.

Lemma version_file_true (w : World) (s : instance) (root : string) :
  attrs s !! "root" = Some (VStr root) ->
  version_file w s = path_exists w (os_path_join root "VERSION.txt").
Proof. unfold version_file. by intros ->. Qed.

Lemma Call_get_version_run (w : World) (s : instance) :
  attrs s !! "_get_version" = None -> attrs s !! "_file_exists" = None ->
  (version_file w s = true -> attrs s !! "_get_path" = None) ->
  Call._get_version w s = Project._get_version w s.
Proof.
  intros H1 H2 H3. unfold Call._get_version, Project._get_version.
  rewrite (method_None _ _ H1). cbn [bind].
  rewrite Call_file_exists_run by done.
  destruct (Project._file_exists w s "VERSION.txt") as [[|]|e] eqn:E;
    cbn [bind]; try reflexivity.
  apply _file_exists_Ok in E as (root & Hroot & _ & Hfound).
  unfold Call._get_path. rewrite method_None; [done|].
  apply H3. by rewrite (version_file_true _ _ _ Hroot).
Qed.

Lemma Call_get_version_inv (w : World) (s : instance) (v : string) :
  Call._get_version w s = Ok v ->
  attrs s !! "_get_version" = None /\ attrs s !! "_file_exists" = None /\
  (version_file w s = true -> attrs s !! "_get_path" = None) /\
  Project._get_version w s = Ok v.
Proof.
  intros H. pose proof H as H0. unfold Call._get_version in H0.
  bind_inv H0. apply method_inv in E. bind_inv H0. rename a0 into found.
  apply Call_file_exists_inv in E0 as [E0 Hfound].
  assert (version_file w s = true -> attrs s !! "_get_path" = None) as Hpath.
  { intros Hv. apply _file_exists_Ok in Hfound as (root & Hroot & _ & ->).
    rewrite (version_file_true _ _ _ Hroot) in Hv. rewrite Hv in H0.
    unfold Call._get_path in H0. bind_inv H0. bind_inv E1.
    by apply method_inv in E2. }
  repeat split; [done | done | done |]. by rewrite <- Call_get_version_run.
Qed.

(** The hook is found for every section exactly when no section before it
    left an attribute named [_load_section]. *)
Lemma guarded_fold_inv (sections : list (string * list (string * atom)))
    (acc : result instance) (o' : instance) :
  fold_left (fun acc s => let* o := acc in Call._load_section o s.1 s.2)
    sections acc = Ok o' ->
  exists o, acc = Ok o /\
    o' = fold_left (fun o s => Project._load_section o s.1 s.2) sections o.
Proof.
  revert acc. induction sections as [|s sections IH]; intros acc H.
  - cbn in H. subst acc. by exists o'.
  - cbn [fold_left] in H. apply IH in H as (o1 & H & ->).
    bind_inv H. subst acc. unfold Call._load_section in H. bind_inv H.
    injection H as <-. by exists a.
Qed.

Lemma fold_assign_notin (l : list (string * value)) (m : gmap string value)
    (k : string) :
  k ∉ l.*1 -> fold_left assign l m !! k = m !! k.
Proof.
  revert m. induction l as [|[k' v] l IH]; intros m Hk; [done|].
  cbn [fold_left]. rewrite fmap_cons, not_elem_of_cons in Hk.
  destruct Hk as [Hne Hk]. rewrite (IH _ Hk). unfold assign. cbn [fst snd] in *.
  by rewrite lookup_insert_ne.
Qed.

Lemma fold_assign_None (l : list (string * value)) (m : gmap string value)
    (k : string) :
  fold_left assign l m !! k = None -> k ∉ l.*1.
Proof.
  revert m. induction l as [|kv l IH]; intros m H.
  - apply not_elem_of_nil.
  - cbn [fold_left] in H. rewrite fold_assign_union in H.
    apply lookup_union_None in H as [H1 H2].
    unfold assign in H2. apply lookup_insert_None in H2 as [_ H2].
    cbn [fmap list_fmap]. apply not_elem_of_cons. split; [done|].
    by apply (IH ∅).
Qed.

Lemma guarded_fold_run (sections : list (string * list (string * atom)))
    (o : instance) :
  attrs o !! "_load_section" = None ->
  "_load_section" ∉ (flat_map section_assignments sections).*1 ->
  fold_left (fun acc s => let* o := acc in Call._load_section o s.1 s.2)
    sections (Ok o)
  = Ok (fold_left (fun o s => Project._load_section o s.1 s.2) sections o).
Proof.
  revert o. induction sections as [|s sections IH]; intros o Ho Hnot; [done|].
  cbn [flat_map] in Hnot. rewrite fmap_app in Hnot.
  apply not_elem_of_app in Hnot as [Hs Hrest].
  cbn [fold_left bind]. unfold Call._load_section at 2.
  rewrite (method_None _ _ Ho). cbn [bind]. apply IH; [|done].
  destruct (fold_sections [s] o) as [Ha _]. cbn [fold_left flat_map] in Ha.
  rewrite app_nil_r in Ha. rewrite Ha. by rewrite fold_assign_notin.
Qed.

Lemma Config_load_inv (w : World) (self : instance) (out : instance * bool) :
  Call.Config_load w self = Ok out ->
  out = Config.load w Project._load_section self.
Proof.
  unfold Call.Config_load, Config.load.
  destruct (path_exists w (config_path self)); cbn [negb]; [|congruence].
  destruct (ini_sections w (config_path self)) as [sections|]; [|congruence].
  intros H. bind_inv H. apply guarded_fold_inv in E as (o & Ho & ->).
  injection Ho as <-. by injection H as <-.
Qed.

Lemma Config_load_run (w : World) (self : instance) :
  attrs self !! "_load_section" = None ->
  config_writes w (config_path self) !! "_load_section" = None ->
  Call.Config_load w self = Ok (Config.load w Project._load_section self).
Proof.
  unfold Call.Config_load, Config.load, config_writes.
  destruct (path_exists w (config_path self)); cbn [negb]; [|done].
  destruct (ini_sections w (config_path self)) as [sections|]; [|done].
  intros Hs HM. rewrite lookup_insert_ne in HM by done.
  apply fold_assign_None in HM. by rewrite (guarded_fold_run _ _ Hs HM).
Qed.

Lemma methods_called_elem (w : World) (d : bool) (c : instance) (m : string) :
  m ∈ methods_called w d c <->
  m = "_get_org" \/ m = "_get_scm" \/ m = "_file_exists" \/ m = "_get_version"
  \/ (version_file w c = true /\ m = "_get_path")
  \/ (d = true /\ m = "_get_disk").
Proof.
  unfold methods_called.
  destruct (version_file w c), d;
    rewrite !elem_of_app, !elem_of_cons, !elem_of_nil; intuition congruence.
Qed.

(** Past the root test, a call of [load()] runs the methods of the class
    when no attribute hides one of them on the way. *)
Lemma Call_load_run (w : World) (d : bool) (self : instance) (r : string) :
  attrs self !! "root" = Some (VStr r) -> path_exists w r = true ->
  attrs self !! "load" = None ->
  Call.Config_load w self = Ok (Config.load w Project._load_section self) ->
  (forall m, m ∈ methods_called w d (after_config w self) ->
             attrs (after_config w self) !! m = None) ->
  Call.load w d self = Project.load w d self.
Proof.
  intros Hr He Hl Hc Hm.
  unfold Call.load, Project.load.
  rewrite (method_None _ _ Hl), (getattr_lookup _ _ _ Hr).
  cbn [bind as_path]. rewrite He. cbn [negb]. rewrite Hc. cbn [bind].
  unfold after_config in Hm.
  destruct (Config.load w Project._load_section self) as [c b].
  cbn [fst] in Hm.
  assert (attrs c !! "_get_org" = None) as Gorg
      by (apply Hm, methods_called_elem; tauto).
  assert (attrs c !! "_get_scm" = None) as Gscm
      by (apply Hm, methods_called_elem; tauto).
  assert (attrs c !! "_file_exists" = None) as Gfile
      by (apply Hm, methods_called_elem; tauto).
  assert (attrs c !! "_get_version" = None) as Gversion
      by (apply Hm, methods_called_elem; tauto).
  assert (version_file w c = true -> attrs c !! "_get_path" = None) as Gpath
      by (intros Hv; apply Hm, methods_called_elem; tauto).
  assert (d = true -> attrs c !! "_get_disk" = None) as Gdisk
      by (intros Hd; apply Hm, methods_called_elem; tauto).
  clear Hm.
  destruct (getattr c "title") as [title|e]; cbn [bind]; [|done].
  assert (forall s2 : instance,
            (forall k, k <> "title" -> attrs s2 !! k = attrs c !! k) ->
            (let* org := Call._get_org s2 in
             let self := setattr s2 "org" org in
             let* (scm, self) := Call._get_scm w self in
             let self := setattr self "scm" (VStr (strip scm)) in
             let* version := Call._get_version w self in
             let self := setattr self "version" (VStr version) in
             let* self :=
               if d then
                 let* disk := Call._get_disk w self in
                 Ok (setattr self "disk" (VStr disk))
               else Ok self in
             let* loaded := getattr self "is_loaded" in
             Ok (self, loaded))
            = (let self := setattr s2 "org" (Project._get_org s2) in
               let* (scm, self) := Project._get_scm w self in
               let self := setattr self "scm" (VStr (strip scm)) in
               let* version := Project._get_version w self in
               let self := setattr self "version" (VStr version) in
               let* self :=
                 if d then
                   let* disk := Project._get_disk w self in
                   Ok (setattr self "disk" (VStr disk))
                 else Ok self in
               let* loaded := getattr self "is_loaded" in
               Ok (self, loaded))) as Hrest.
  { intros s2 Hs2. unfold Call._get_org.
    rewrite method_None by (by rewrite Hs2). cbn [bind]. cbv zeta.
    rewrite Call_get_scm_run by (attr_simpl; by rewrite Hs2).
    destruct (Project._get_scm w (setattr s2 "org" (Project._get_org s2)))
      as [[scm s3]|e] eqn:Hscm; cbn [bind]; [|done].
    apply _get_scm_Ok in Hscm as (root & Hroot & _ & -> & ->).
    assert (forall k, k ∉ ["title"; "org"; "is_dirty"; "scm"] ->
              attrs (setattr
                       (if path_exists w (os_path_join root ".git")
                        then setattr (setattr s2 "org" (Project._get_org s2))
                               "is_dirty"
                               (VBool (1 <=? (getstatusoutput w
                                                (Project.git_cmd root)).1)%Z)
                        else setattr s2 "org" (Project._get_org s2))
                       "scm" (VStr (strip (scm_label w root)))) !! k
              = attrs c !! k) as Hs4.
    { intros k Hk. rewrite !not_elem_of_cons in Hk.
      destruct Hk as (? & ? & ? & ? & _).
      destruct (path_exists w (os_path_join root ".git"));
        attr_simpl; by apply Hs2. }
    set (s4 := setattr _ "scm" _) in *.
    rewrite Call_get_version_run.
    - destruct (Project._get_version w s4) as [version|e]; cbn [bind]; [|done].
      destruct d; [|done]. unfold Call._get_disk.
      rewrite method_None; [done|]. attr_simpl. rewrite Hs4.
      + by apply Gdisk.
      + apply (bool_decide_unpack _). by vm_compute.
    - rewrite Hs4; [done|]. apply (bool_decide_unpack _). by vm_compute.
    - rewrite Hs4; [done|]. apply (bool_decide_unpack _). by vm_compute.
    - intros Hv. rewrite Hs4; [|apply (bool_decide_unpack _); by vm_compute].
      apply Gpath. unfold version_file in *. rewrite <- Hs4; [done|].
      apply (bool_decide_unpack _). by vm_compute. }
  destruct (truthy title); cbn [negb].
  - cbn [bind]. by apply Hrest.
  - destruct (getattr c "name") as [name|e]; cbn [bind]; [|done].
    apply Hrest. intros k Hk. by attr_simpl.
Qed.

(** A call of [load()] that returns found every method it called. *)
Lemma Call_load_inv (w : World) (d : bool) (self : instance) (r : string)
    (out : instance * value) :
  attrs self !! "root" = Some (VStr r) -> path_exists w r = true ->
  Call.load w d self = Ok out ->
  attrs self !! "load" = None /\
  Call.Config_load w self = Ok (Config.load w Project._load_section self) /\
  (forall m, m ∈ methods_called w d (after_config w self) ->
             attrs (after_config w self) !! m = None) /\
  Project.load w d self = Ok out.
Proof.
  intros Hr He H. pose proof H as H0. unfold Call.load in H0.
  bind_inv H0. apply method_inv in E. rename E into Hl.
  rewrite (getattr_lookup _ _ _ Hr) in H0. cbn [bind as_path] in H0.
  rewrite He in H0. cbn [negb] in H0.
  bind_inv H0. destruct a0 as [c b]. pose proof E as Hc.
  apply Config_load_inv in E.
  assert (c = after_config w self) as Hcfg
      by (unfold after_config; by rewrite <- E).
  rewrite E in Hc.
  assert (forall m, m ∈ methods_called w d c -> attrs c !! m = None) as Hm.
  { bind_inv H0. rename a0 into title. bind_inv H0. rename a0 into s2.
    assert (forall k, k <> "title" -> attrs s2 !! k = attrs c !! k) as Hs2.
    { intros k Hk. destruct (truthy title); cbn [negb] in E1.
      - by injection E1 as <-.
      - bind_inv E1. injection E1 as <-. by attr_simpl. }
    bind_inv H0. rename a0 into org. unfold Call._get_org in E2.
    bind_inv E2. apply method_inv in E3. injection E2 as <-.
    cbv zeta in H0. bind_inv H0. destruct a1 as [scm s3].
    apply Call_get_scm_inv in E2 as (Gscm & Gfile & Hscm).
    apply _get_scm_Ok in Hscm as (root & Hroot & _ & -> & ->).
    bind_inv H0. rename a1 into version.
    apply Call_get_version_inv in E2 as (Gversion & _ & Gpath & _).
    bind_inv H0. rename a1 into s6.
    assert (forall k, k ∉ ["title"; "org"; "is_dirty"; "scm"] ->
              attrs (setattr
                       (if path_exists w (os_path_join root ".git")
                        then setattr (setattr s2 "org" (Project._get_org s2))
                               "is_dirty"
                               (VBool (1 <=? (getstatusoutput w
                                                (Project.git_cmd root)).1)%Z)
                        else setattr s2 "org" (Project._get_org s2))
                       "scm" (VStr (strip (scm_label w root)))) !! k
              = attrs c !! k) as Hs4.
    { intros k Hk. rewrite !not_elem_of_cons in Hk.
      destruct Hk as (? & ? & ? & ? & _).
      destruct (path_exists w (os_path_join root ".git"));
        attr_simpl; by apply Hs2. }
    set (s4 := setattr _ "scm" _) in *.
    intros m Hmem. apply methods_called_elem in Hmem.
    destruct Hmem as [->|[->|[->|[->|[[Hv ->]|[-> ->]]]]]].
    - by rewrite <- Hs2.
    - revert Gscm. attr_simpl. by rewrite Hs2.
    - revert Gfile. attr_simpl. by rewrite Hs2.
    - rewrite <- Hs4; [done|]. apply (bool_decide_unpack _). by vm_compute.
    - rewrite <- Hs4; [|apply (bool_decide_unpack _); by vm_compute].
      apply Gpath. unfold version_file in *. rewrite Hs4; [done|].
      apply (bool_decide_unpack _). by vm_compute.
    - bind_inv E2. unfold Call._get_disk in E4. bind_inv E4.
      apply method_inv in E5. revert E5. attr_simpl. rewrite Hs4; [done|].
      apply (bool_decide_unpack _). by vm_compute. }
  rewrite <- Hcfg. repeat split; [done | done | done |].
  rewrite <- H. symmetry. apply (Call_load_run w d self r); try done.
  by rewrite <- Hcfg.
Qed.

(** What a call of [load()] returns, the method of the class returns. *)
Lemma Call_load_refines (w : World) (d : bool) (self : instance)
    (out : instance * value) :
  Call.load w d self = Ok out -> Project.load w d self = Ok out.
Proof.
  intros H. pose proof H as H0. unfold Call.load in H0.
  bind_inv H0. apply method_inv in E. bind_inv H0. bind_inv H0.
  apply getattr_Ok in E0. apply as_path_Ok in E1. subst a0. rename a1 into r.
  destruct (path_exists w r) eqn:He.
  - by apply (Call_load_inv w d self r).
  - rewrite (load_missing _ _ _ _ E0 He). rewrite <- H. unfold Call.load.
    rewrite (method_None _ _ E), (getattr_lookup _ _ _ E0).
    cbn [bind as_path]. by rewrite He.
Qed.

(** A second call of [load()] changes nothing, when the root the first
    call left behind still exists whenever the original one did and no
    attribute hides [load] or [_load_section]. *)
Lemma Call_load_twice (w : World) (d : bool) (self self1 : instance)
    (ret1 : value) :
  Call.load w d self = Ok (self1, ret1) ->
  (forall r0 r1, attrs self !! "root" = Some (VStr r0) ->
                 path_exists w r0 = true ->
                 attrs self1 !! "root" = Some (VStr r1) ->
                 path_exists w r1 = true) ->
  attrs self1 !! "load" = None ->
  attrs self1 !! "_load_section" = None ->
  Call.load w d self1 = Ok (self1, ret1).
Proof.
  intros H Hstill Hl1 Hh1.
  pose proof (Call_load_refines _ _ _ _ H) as HP.
  rewrite <- (load_twice w d self self1 ret1 HP Hstill).
  destruct (load_root _ _ _ _ _ HP) as [r0 Hr0].
  destruct (path_exists w r0) eqn:He.
  - destruct (Call_load_inv _ _ _ _ _ Hr0 He H) as (_ & _ & Hm & _).
    destruct (load_writes_inv _ _ _ _ _ _ Hr0 He HP)
      as (W & HW & Ha1 & Hc1 & _).
    destruct (writes_keys _ _ _ _ HW) as (tv & root & _ & _ & Hrx & HWnone).
    pose proof (after_config_attrs w self) as Hx.
    pose proof (after_config_attrs w self1) as Hy.
    rewrite Hc1, Ha1, Hx in Hy.
    set (M := config_writes w (config_path self)) in *.
    assert (W !! "root" = None) as HWroot.
    { apply HWnone. apply (bool_decide_unpack _). by vm_compute. }
    assert (attrs self1 !! "root" = Some (VStr root)) as Hr1.
    { by rewrite Ha1, lookup_union_r. }
    assert (version_file w (after_config w self1)
            = version_file w (after_config w self)) as Hvf.
    { unfold version_file. by rewrite Hy, Hx, (overlay_twice M W _ "root"). }
    apply (Call_load_run w d self1 root Hr1 (Hstill _ _ Hr0 He Hr1) Hl1).
    + apply Config_load_run; [done|]. rewrite Hc1. fold M.
      rewrite Ha1, Hx in Hh1. apply lookup_union_None in Hh1 as [_ Hh1].
      by apply lookup_union_None in Hh1 as [Hh1 _].
    + intros m Hmem. rewrite methods_called_elem, Hvf in Hmem.
      rewrite <- methods_called_elem in Hmem.
      rewrite Hy, overlay_twice; [rewrite <- Hx; by apply Hm|].
      apply HWnone. apply methods_called_elem in Hmem.
      destruct Hmem as [->|[->|[->|[->|[[_ ->]|[_ ->]]]]]];
        apply (bool_decide_unpack _); by vm_compute.
  - rewrite (load_missing _ _ _ _ Hr0 He) in HP. injection HP as <- <-.
    assert (attrs (setattr self "is_loaded" (VBool false)) !! "root"
            = Some (VStr r0)) as Hr1 by (by attr_simpl).
    unfold Call.load, Project.load.
    rewrite (method_None _ _ Hl1), (getattr_lookup _ _ _ Hr1).
    cbn [bind as_path]. by rewrite He.
Qed.

(** C9, as the code has it.  On an unchanged filesystem a second call of
    [load()] with the same [include_disk] returns what the first returned
    and leaves every listed field (title, org, scm, is_dirty, version,
    disk, status, type, tags, config_exists, is_loaded) as the first call
    left it, provided that after the first call the root attribute still
    names an existing path whenever it did before, and no attribute is
    named [load] or [_load_section]. *)
Theorem load_idempotent (w : World) (d : bool) (self self1 : instance)
    (ret1 : value) :
  Call.load w d self = Ok (self1, ret1) ->
  (forall r0 r1, attrs self !! "root" = Some (VStr r0) ->
                 path_exists w r0 = true ->
                 attrs self1 !! "root" = Some (VStr r1) ->
                 path_exists w r1 = true) ->
  attrs self1 !! "load" = None ->
  attrs self1 !! "_load_section" = None ->
  exists self2 ret2,
    Call.load w d self1 = Ok (self2, ret2) /\ ret2 = ret1 /\
    forall f, f ∈ load_fields -> attrs self2 !! f = attrs self1 !! f.
Proof.
  intros H Hstill Hl Hh. exists self1, ret1.
  split; [by apply (Call_load_twice w d self)|]. done.
Qed.

Lemma load_idempotent_witness :
  exists self2 ret2,
    Call.load work false (loaded work alpha) = Ok (self2, ret2) /\
    ret2 = VBool true /\
    forall f, f ∈ load_fields ->
              attrs self2 !! f = attrs (loaded work alpha) !! f.
Proof.
  apply (load_idempotent work false alpha (loaded work alpha) (VBool true)).
  - by vm_compute.
  - intros r0 r1 _ _ Hr1. vm_compute in Hr1. injection Hr1 as <-. reflexivity.
  - by vm_compute.
  - by vm_compute.
Defined.

(** C9 as stated fails: the [project] section of [project.ini] may rebind
    [root]; when the new root does not exist, the first call ends with
    [is_loaded] true and the second stops at the root test and sets it to
    false. *)
Lemma load_idempotent_counterexample :
  ~ (forall (w : World) (d : bool) (self self1 self2 : instance)
       (ret1 ret2 : value),
       Call.load w d self = Ok (self1, ret1) ->
       Call.load w d self1 = Ok (self2, ret2) ->
       forall f, f ∈ load_fields -> attrs self2 !! f = attrs self1 !! f).
Proof.
  intros claim.
  specialize (claim srv false moved (loaded srv moved)
                (loaded srv (loaded srv moved)) (VBool true) (VBool false)).
  assert (attrs (loaded srv (loaded srv moved)) !! "is_loaded"
          = attrs (loaded srv moved) !! "is_loaded") as Habs.
  { apply claim; [by vm_compute | by vm_compute |].
    apply (bool_decide_unpack _). by vm_compute. }
  vm_compute in Habs. discriminate Habs.
Qed.

(** The second call does not return at all when the first left an
    attribute named [load] (a key of the project section) or
    [_load_section] (here a section of that name) on the instance. *)
Lemma load_hidden_by_attribute :
  Call.load opt false tool = Ok (loaded opt tool, VBool true)
  /\ Call.load opt false (loaded opt tool) = Raise TypeError
  /\ Call.load opt false kit = Ok (loaded opt kit, VBool true)
  /\ Call.load opt false (loaded opt kit) = Raise TypeError.
Proof. repeat split; by vm_compute. Qed.

(** * Further properties of the code *)

(** ** Discovery without criteria *)

Lemma get_projects_loop_plain (w : World) (path : string)
    (criteria : option (list (string * atom))) (d show_all : bool)
    (entries : list string) (ps acc : list instance) :
  criteria_truthy criteria = false ->
  load_entries w path d entries = Ok ps ->
  get_projects_loop w path criteria d show_all entries [] acc
  = Ok (acc ++ List.filter (visible show_all) ps)%list.
Proof.
  intros Hc. revert ps acc.
  induction entries as [|e entries IH]; intros ps acc Hload.
  - inversion Hload. cbn. by rewrite app_nil_r.
  - cbn [get_projects_loop load_entries] in *.
    destruct (path_isdir w (os_path_join path e)); cbn [negb];
      [|by apply IH].
    rewrite bool_decide_eq_false_2 by apply not_elem_of_nil.
    bind_inv Hload. destruct a as [p ret]. bind_inv Hload.
    inversion Hload; subst ps; clear Hload. rename a into ps.
    rewrite E. cbn [bind].
    destruct (load_keeps _ _ _ _ _ "config_exists" E
                (init_config_exists _ _ _ _)) as [ce Hce].
    rewrite (getattr_lookup _ _ _ Hce). cbn [bind List.filter].
    assert (visible show_all p = truthy ce || show_all) as Hvis.
    { unfold visible, getattr_default. by rewrite Hce. }
    rewrite Hc. destruct (visible show_all p) eqn:Hp.
    + replace (negb (truthy ce) && negb show_all) with false
        by (destruct (truthy ce), show_all; done).
      rewrite (IH ps _ E0). by rewrite <- app_assoc.
    + replace (negb (truthy ce) && negb show_all) with true
        by (destruct (truthy ce), show_all; done).
      by apply IH.
Qed.

(** X1.  Without criteria ([None], or an empty mapping) [get_projects]
    returns the loaded project of every sub directory that passes the
    visibility filter, each exactly once and in listing order; entries that
    are not directories are skipped. *)
Theorem get_projects_no_criteria (w : World) (path : string)
    (criteria : option (list (string * atom))) (include_disk show_all : bool)
    (entries : list string) (ps : list instance) :
  criteria = None \/ criteria = Some [] ->
  listdir w path = Some entries ->
  load_entries w path include_disk entries = Ok ps ->
  get_projects w path criteria include_disk show_all
  = Ok (List.filter (visible show_all) ps).
Proof.
  intros Hc Hls Hload. unfold get_projects. rewrite Hls.
  rewrite (get_projects_loop_plain _ _ _ _ _ _ ps []); [done| |done].
  by destruct Hc as [-> | ->].
Qed.

Lemma get_projects_no_criteria_witness :
  get_projects work "/work" None false false = Ok [loaded work alpha]
  /\ get_projects work "/work" (Some []) false true
     = Ok [loaded work alpha; loaded work beta].
Proof.
  split.
  - rewrite (get_projects_no_criteria work "/work" None false false
               ["alpha"; "beta"; "notes.txt"]
               [loaded work alpha; loaded work beta]);
      [by vm_compute | by left | reflexivity | by vm_compute].
  - rewrite (get_projects_no_criteria work "/work" (Some []) false true
               ["alpha"; "beta"; "notes.txt"]
               [loaded work alpha; loaded work beta]);
      [by vm_compute | by right | reflexivity | by vm_compute].
Defined.

(** ** What discovery never returns *)

Lemma criteria_loop_inv (p : instance) (items : list (string * atom))
    (acc acc' : list instance) :
  criteria_loop p items acc = Ok acc' ->
  forall q, q ∈ acc' -> q ∈ acc \/ q = p.
Proof.
  revert acc. induction items as [|[f s] items IH]; intros acc H q Hq.
  - inversion H. subst. by left.
  - cbn [criteria_loop] in H. bind_inv H.
    destruct (py_eq s a).
    + destruct (IH _ H q Hq) as [Hin | ->]; [|by right].
      apply elem_of_app in Hin as [Hin | Hin]; [by left|].
      apply list_elem_of_singleton in Hin. by right.
    + by apply (IH _ H).
Qed.

Lemma get_projects_loop_inv (w : World) (path : string)
    (criteria : option (list (string * atom))) (d show_all : bool)
    (entries : list string) (acc ps : list instance) :
  get_projects_loop w path criteria d show_all entries [] acc = Ok ps ->
  exists all,
    load_entries w path d entries = Ok all /\
    forall p, p ∈ ps -> p ∈ acc \/ (p ∈ all /\ visible show_all p = true).
Proof.
  revert acc. induction entries as [|e entries IH]; intros acc H.
  - inversion H. subst. exists []. split; [done|]. by left.
  - cbn [get_projects_loop load_entries] in *.
    destruct (path_isdir w (os_path_join path e)); cbn [negb] in H;
      [|by apply IH].
    rewrite bool_decide_eq_false_2 in H by apply not_elem_of_nil.
    bind_inv H. destruct a as [q ret]. rewrite E. cbn [bind].
    bind_inv H. rename a into ce.
    assert (visible show_all q = truthy ce || show_all) as Hvis.
    { unfold visible, getattr_default. by rewrite (getattr_Ok _ _ _ E0). }
    assert (forall acc',
              get_projects_loop w path criteria d show_all entries [] acc'
              = Ok ps ->
              (forall p, p ∈ acc' -> p ∈ acc \/ (p = q /\ visible show_all q = true)) ->
              exists all,
                (let* ps0 := load_entries w path d entries in Ok (q :: ps0))
                = Ok all /\
                forall p, p ∈ ps ->
                          p ∈ acc \/ (p ∈ all /\ visible show_all p = true))
      as Hstep.
    { intros acc' Hloop Hacc'.
      destruct (IH _ Hloop) as (all & -> & Hall). exists (q :: all).
      split; [done|]. intros p Hp.
      destruct (Hall p Hp) as [Hin | [Hin Hv]].
      - destruct (Hacc' p Hin) as [? | [-> Hv]]; [by left|].
        right. split; [apply list_elem_of_here | done].
      - right. split; [by apply list_elem_of_further | done]. }
    destruct (negb (truthy ce) && negb show_all) eqn:Hhide.
    + apply (Hstep acc H). intros p Hp. by left.
    + assert (visible show_all q = true) as Hq.
      { rewrite Hvis. by destruct (truthy ce), show_all. }
      destruct (criteria_truthy criteria).
      * bind_inv H. apply (Hstep a H). intros p Hp.
        destruct (criteria_loop_inv _ _ _ _ E1 p Hp) as [? | ->];
          [by left | by right].
      * apply (Hstep _ H). intros p Hp.
        apply elem_of_app in Hp as [Hp | Hp]; [by left|].
        apply list_elem_of_singleton in Hp. by right.
Qed.

Lemma get_projects_from_entries (w : World) (path : string)
    (criteria : option (list (string * atom))) (d show_all : bool)
    (ps : list instance) :
  get_projects w path criteria d show_all = Ok ps ->
  exists entries all,
    listdir w path = Some entries /\
    load_entries w path d entries = Ok all /\
    forall p, p ∈ ps -> p ∈ all /\ visible show_all p = true.
Proof.
  unfold get_projects. intros H.
  destruct (listdir w path) as [entries|]; [|discriminate].
  destruct (get_projects_loop_inv _ _ _ _ _ _ _ _ H) as (all & Hall & Hin).
  exists entries, all. split; [done|]. split; [done|].
  intros p Hp. destruct (Hin p Hp) as [Hnil | ?]; [|done].
  by apply elem_of_nil in Hnil.
Qed.

(** X2.  Whatever the criteria, every project [get_projects] returns is the
    loaded project of a sub directory of [path] and passes the visibility
    filter: without [show_all] no project whose [config_exists] is false is
    ever returned. *)
Theorem get_projects_only_visible (w : World) (path : string)
    (criteria : option (list (string * atom))) (include_disk show_all : bool)
    (ps : list instance) :
  get_projects w path criteria include_disk show_all = Ok ps ->
  exists entries all,
    listdir w path = Some entries /\
    load_entries w path include_disk entries = Ok all /\
    forall p, p ∈ ps ->
      p ∈ all /\ visible show_all p = true /\
      (show_all = false -> truthy (getattr_default p "config_exists") = true).
Proof.
  intros H.
  destruct (get_projects_from_entries _ _ _ _ _ _ H)
    as (entries & all & Hls & Hall & Hin).
  exists entries, all. split; [done|]. split; [done|].
  intros p Hp. destruct (Hin p Hp) as [Hp' Hv].
  split; [done|]. split; [done|]. intros ->.
  unfold visible in Hv. by rewrite orb_false_r in Hv.
Qed.

Lemma get_projects_only_visible_witness :
  truthy (getattr_default (loaded work alpha) "config_exists") = true.
Proof.
  destruct (get_projects_only_visible work "/work"
              (Some [("status", AStr "active"); ("org", AStr "ACME")])
              false false [loaded work alpha; loaded work alpha])
    as (entries & all & _ & _ & Hall); [by vm_compute|].
  destruct (Hall (loaded work alpha)) as (_ & _ & Hce);
    [apply list_elem_of_here|].
  by apply Hce.
Defined.

(** ** The aggregation queries *)

Lemma _get_org_atom (s : instance) : exists a, Project._get_org s = VAtom a.
Proof.
  unfold Project._get_org, section_attr.
  destruct (truthy (getattr_default s "client")).
  - destruct (getattr_default s "client") as [a|bag]; [by eexists|].
    destruct (bag !! "code"); by eexists.
  - destruct (truthy (getattr_default s "business")); [|by eexists].
    destruct (getattr_default s "business") as [a|bag]; [by eexists|].
    destruct (bag !! "code"); by eexists.
Qed.

Lemma load_org_atom (w : World) (d : bool) (self self' : instance)
    (ret : value) :
  Project.load w d self = Ok (self', ret) ->
  (exists a, attrs self !! "org" = Some (VAtom a)) ->
  exists a, attrs self' !! "org" = Some (VAtom a).
Proof.
  intros H Horg. destruct (load_root _ _ _ _ _ H) as [r Hr].
  destruct (path_exists w r) eqn:He.
  - destruct (load_attrs _ _ _ _ _ _ Hr He H)
      as (s2 & root & version & _ & _ & _ & -> & _).
    destruct (_get_org_atom s2) as [a ->]. by exists a.
  - rewrite (load_missing _ _ _ _ Hr He) in H. injection H as <- _.
    destruct Horg as [a Ha]. exists a. by attr_simpl.
Qed.

Lemma load_entries_org_atom (w : World) (path : string) (d : bool)
    (entries : list string) (ps : list instance) :
  load_entries w path d entries = Ok ps ->
  forall p, p ∈ ps -> exists a, attrs p !! "org" = Some (VAtom a).
Proof.
  revert ps. induction entries as [|e entries IH]; intros ps H p Hp.
  - inversion H. subst. by apply elem_of_nil in Hp.
  - cbn [load_entries] in H.
    destruct (path_isdir w (os_path_join path e)); [|by apply (IH ps)].
    bind_inv H. destruct a as [q ret]. bind_inv H. inversion H. subst.
    apply elem_of_cons in Hp as [-> | Hp]; [|by apply (IH a)].
    eapply load_org_atom; [exact E|].
    exists (AStr "Unknown"). unfold Project.__init__.
    destruct (path_exists w (os_path_join (os_path_join path e) "project.ini"));
      by vm_compute.
Qed.

Lemma py_in_atoms (v : value) (acc : list value) :
  (exists a, v = VAtom a) ->
  (forall u, u ∈ acc -> exists a, u = VAtom a) ->
  py_in v acc = true <-> v ∈ acc.
Proof.
  intros [a ->] Hacc. unfold py_in. rewrite existsb_exists. split.
  - intros (u & Hu & Heq). apply list_elem_of_In in Hu.
    destruct (Hacc u Hu) as [b ->]. cbn in Heq.
    apply bool_decide_eq_true in Heq. by subst.
  - intros Hin. exists (VAtom a). split; [by apply list_elem_of_In|].
    cbn. by apply bool_decide_eq_true.
Qed.

(** The loop keeps each plain value once, in the order of first meeting. *)
Lemma collect_atoms (field : string) (projects : list instance)
    (acc : list value) :
  (forall p, p ∈ projects -> exists a, attrs p !! field = Some (VAtom a)) ->
  (forall u, u ∈ acc -> exists a, u = VAtom a) ->
  NoDup acc ->
  exists out,
    collect field projects acc = Ok out /\ NoDup out /\
    (forall v, v ∈ out <->
               v ∈ acc \/ exists p, p ∈ projects /\ attrs p !! field = Some v).
Proof.
  revert acc. induction projects as [|p ps IH]; intros acc Hps Hacc Hnd.
  - exists acc. split; [done|]. split; [done|]. intros v. split; [by left|].
    intros [? | (p & Hp & _)]; [done | by apply elem_of_nil in Hp].
  - destruct (Hps p) as [a Ha]; [apply list_elem_of_here|].
    assert (forall q, q ∈ ps -> exists a, attrs q !! field = Some (VAtom a))
      as Hps'.
    { intros q Hq. apply Hps. by apply list_elem_of_further. }
    cbn [collect]. rewrite (getattr_lookup _ _ _ Ha). cbn [bind].
    pose proof (py_in_atoms (VAtom a) acc (ex_intro _ a eq_refl) Hacc) as Hin.
    destruct (py_in (VAtom a) acc) eqn:Hpy; cbn [negb].
    + destruct (IH acc Hps' Hacc Hnd) as (out & -> & Hnd' & Hout).
      exists out. split; [done|]. split; [done|]. intros v.
      rewrite Hout. split.
      * intros [? | (q & Hq & Hv)]; [by left|].
        right. exists q. split; [by apply list_elem_of_further | done].
      * intros [? | (q & Hq & Hv)]; [by left|].
        apply elem_of_cons in Hq as [-> | Hq]; [|right; eauto].
        left. rewrite Ha in Hv. injection Hv as <-. by apply Hin.
    + destruct (IH (acc ++ [VAtom a])%list Hps') as (out & -> & Hnd' & Hout).
      { intros u Hu. apply elem_of_app in Hu as [Hu | Hu]; [by apply Hacc|].
        apply list_elem_of_singleton in Hu. by exists a. }
      { apply NoDup_app. split; [done|]. split; [|apply NoDup_singleton].
        intros u Hu Hu'. apply list_elem_of_singleton in Hu'. subst u.
        apply Hin in Hu. congruence. }
      exists out. split; [done|]. split; [done|]. intros v.
      rewrite Hout, elem_of_app, list_elem_of_singleton. split.
      * intros [[? | ->] | (q & Hq & Hv)]; [by left | |].
        -- right. exists p. split; [apply list_elem_of_here | done].
        -- right. exists q. split; [by apply list_elem_of_further | done].
      * intros [? | (q & Hq & Hv)]; [by left; left|].
        apply elem_of_cons in Hq as [-> | Hq]; [|right; eauto].
        left. right. congruence.
Qed.

Lemma insert_sorted_Permutation (le : value -> value -> bool) (x : value)
    (l : list value) :
  Permutation (insert_sorted le x l) (x :: l).
Proof.
  induction l as [|y l IH]; cbn [insert_sorted]; [done|].
  destruct (le x y); [done|]. rewrite IH. apply perm_swap.
Qed.

Lemma sorted_Permutation (le : value -> value -> bool) (l : list value) :
  Permutation (sorted le l) l.
Proof.
  induction l as [|x l IH]; [done|]. cbn [sorted foldr].
  rewrite insert_sorted_Permutation. by apply perm_skip.
Qed.

Lemma insert_sorted_Sorted (le : value -> value -> bool) (x : value)
    (l : list value) :
  (forall a b, le a b = false -> le b a = true) ->
  Sorted (fun a b => le a b = true) l ->
  Sorted (fun a b => le a b = true) (insert_sorted le x l).
Proof.
  intros Htotal. induction 1 as [|y l Hl IH Hhd]; cbn [insert_sorted].
  - by repeat constructor.
  - destruct (le x y) eqn:Hxy.
    + constructor; [by constructor | by constructor].
    + constructor; [done|].
      destruct Hhd as [|z l Hyz]; cbn [insert_sorted].
      * constructor. by apply Htotal.
      * destruct (le x z); constructor; [by apply Htotal | done].
Qed.

Lemma sorted_Sorted (le : value -> value -> bool) (l : list value) :
  (forall a b, le a b = false -> le b a = true) ->
  Sorted (fun a b => le a b = true) (sorted le l).
Proof.
  intros Htotal. induction l as [|x l IH]; [constructor|].
  cbn [sorted foldr]. by apply insert_sorted_Sorted.
Qed.

(** What the three queries compute from a discovery result whose values
    under [field] are plain. *)
Lemma aggregate_sorted (le : value -> value -> bool) (field : string)
    (ps : list instance) :
  (forall a b, le a b = false -> le b a = true) ->
  (forall p, p ∈ ps -> exists a, attrs p !! field = Some (VAtom a)) ->
  exists out,
    (let* vs := collect field ps [] in Ok (sorted le vs)) = Ok out /\
    Sorted (fun a b => le a b = true) out /\ NoDup out /\
    (forall v, v ∈ out <-> exists p, p ∈ ps /\ attrs p !! field = Some v).
Proof.
  intros Htotal Hps.
  destruct (collect_atoms field ps [] Hps) as (vs & -> & Hnd & Hvs).
  { intros u Hu. by apply elem_of_nil in Hu. }
  { apply NoDup_nil_2. }
  exists (sorted le vs). split; [done|]. split; [by apply sorted_Sorted|].
  split.
  - by rewrite sorted_Permutation.
  - intros v. rewrite sorted_Permutation, Hvs. split.
    + intros [Hnil | ?]; [by apply elem_of_nil in Hnil | done].
    + by right.
Qed.

(** X3.  [get_project_clients] returns the org values of the projects that
    [get_projects(path)] returns: every such value, each exactly once, in
    sorted order.  [le] is the ordering [sorted] uses, any two values being
    comparable. *)
Theorem get_project_clients_sorted (le : value -> value -> bool) (w : World)
    (path : string) (ps : list instance) :
  (forall a b, le a b = false -> le b a = true) ->
  get_projects w path None false false = Ok ps ->
  exists clients,
    get_project_clients le w path = Ok clients /\
    Sorted (fun a b => le a b = true) clients /\ NoDup clients /\
    (forall v, v ∈ clients <-> exists p, p ∈ ps /\ attrs p !! "org" = Some v).
Proof.
  intros Htotal Hps. unfold get_project_clients. rewrite Hps. cbn [bind].
  apply aggregate_sorted; [done|]. intros p Hp.
  destruct (get_projects_from_entries _ _ _ _ _ _ Hps)
    as (entries & all & _ & Hall & Hin).
  destruct (Hin p Hp) as (Hp' & _).
  by apply (load_entries_org_atom _ _ _ _ _ Hall).
Qed.

(** X4.  [get_project_statuses] and [get_project_types] return the status
    (type) values of the projects that [get_projects(path)] returns, every
    value exactly once and in sorted order, when those values are plain
    ones (no configuration section is named [status] or [type]). *)
Theorem get_project_statuses_types_sorted (le : value -> value -> bool)
    (w : World) (path : string) (ps : list instance) :
  (forall a b, le a b = false -> le b a = true) ->
  get_projects w path None false false = Ok ps ->
  ((forall p, p ∈ ps -> exists a, attrs p !! "status" = Some (VAtom a)) ->
   exists statuses,
     get_project_statuses le w path = Ok statuses /\
     Sorted (fun a b => le a b = true) statuses /\ NoDup statuses /\
     (forall v, v ∈ statuses <->
                exists p, p ∈ ps /\ attrs p !! "status" = Some v))
  /\
  ((forall p, p ∈ ps -> exists a, attrs p !! "type" = Some (VAtom a)) ->
   exists types,
     get_project_types le w path = Ok types /\
     Sorted (fun a b => le a b = true) types /\ NoDup types /\
     (forall v, v ∈ types <-> exists p, p ∈ ps /\ attrs p !! "type" = Some v)).
Proof.
  intros Htotal Hps.
  unfold get_project_statuses, get_project_types. rewrite Hps. cbn [bind].
  split; intros Hplain; by apply aggregate_sorted.
Qed.

Lemma sample_le_total (a b : value) :
  sample_le a b = false -> sample_le b a = true.
Proof.
  destruct a as [[| | x |]|], b as [[| | y |]|]; cbn; try done.
  intros H. destruct (String.leb_total x y); congruence.
Qed.

Lemma get_project_clients_sorted_witness :
  get_project_clients sample_le yard "/yard" = Ok [VStr "ACME"; VStr "ZED"]
  /\ Sorted (fun a b => sample_le a b = true) [VStr "ACME"; VStr "ZED"].
Proof.
  destruct (get_project_clients_sorted sample_le yard "/yard"
              [ loaded yard (Project.__init__ yard "til" "/yard/til" false);
                loaded yard (Project.__init__ yard "bolt" "/yard/bolt" false) ]
              sample_le_total)
    as (clients & Hclients & Hsorted & _); [by vm_compute|].
  vm_compute in Hclients. injection Hclients as <-.
  split; [by vm_compute | exact Hsorted].
Defined.

Lemma get_project_statuses_types_sorted_witness :
  get_project_statuses sample_le yard "/yard"
    = Ok [VStr "closed"; VStr "live"]
  /\ get_project_types sample_le yard "/yard"
    = Ok [VStr "library"; VStr "project"].
Proof.
  destruct (get_project_statuses_types_sorted sample_le yard "/yard"
              [ loaded yard (Project.__init__ yard "til" "/yard/til" false);
                loaded yard (Project.__init__ yard "bolt" "/yard/bolt" false) ]
              sample_le_total)
    as (Hstatuses & Htypes); [by vm_compute|].
  split.
  - destruct Hstatuses as (statuses & Hs & _).
    + intros p Hp.
      repeat (apply elem_of_cons in Hp as [-> | Hp];
              [eexists; by vm_compute|]).
      by apply elem_of_nil in Hp.
    + vm_compute in Hs. injection Hs as <-. by vm_compute.
  - destruct Htypes as (types & Ht & _).
    + intros p Hp.
      repeat (apply elem_of_cons in Hp as [-> | Hp];
              [eexists; by vm_compute|]).
      by apply elem_of_nil in Hp.
    + vm_compute in Ht. injection Ht as <-. by vm_compute.
Defined.

(** ** The title of a loaded project *)

(** X5.  Once [load()] has gone past the root test the project has a
    title, and the title is either true (non-empty) or equal to the name:
    an empty title is replaced by the name.  So the project prints as its
    title, and as "Untitled Project" only when title and name are both
    empty. *)
Theorem title_after_load (w : World) (d : bool) (self self' : instance)
    (r : string) (ret : value) :
  attrs self !! "root" = Some (VStr r) -> path_exists w r = true ->
  Project.load w d self = Ok (self', ret) ->
  exists title,
    attrs self' !! "title" = Some title /\
    (truthy title = true \/ attrs self' !! "name" = Some title) /\
    Project___str__ self'
    = Ok (if truthy title then title else VStr "Untitled Project").
Proof.
  intros Hr He H.
  destruct (load_writes_inv _ _ _ _ _ _ Hr He H) as (W & HW & Ha & _ & _).
  destruct (writes_keys _ _ _ _ HW) as (tv & root & Htv & HWt & _ & HWnone).
  assert (attrs self' !! "title" = Some tv) as Htitle.
  { rewrite Ha. by apply lookup_union_Some_l. }
  assert (attrs self' !! "name" = attrs (after_config w self) !! "name")
    as Hname.
  { rewrite Ha. apply lookup_union_r. apply HWnone.
    apply (bool_decide_unpack _). by vm_compute. }
  exists tv. split; [done|].
  unfold title_value in Htv. bind_inv Htv. rename a into t.
  unfold Project___str__. rewrite (getattr_lookup _ _ _ Htitle). cbn [bind].
  destruct (truthy t) eqn:Ht.
  - injection Htv as <-. rewrite Ht. split; [by left | done].
  - apply getattr_Ok in Htv. rewrite <- Hname in Htv.
    split; [by right|].
    destruct (truthy tv) eqn:Htv'; [done|].
    rewrite (getattr_lookup _ _ _ Htv). cbn [bind]. by rewrite Htv'.
Qed.

Lemma title_after_load_witness :
  attrs (loaded shop til) !! "title" = Some (VStr "Til")
  /\ Project___str__ (loaded shop bolt) = Ok (VStr "bolt").
Proof.
  split.
  - destruct (title_after_load shop false til (loaded shop til) "/shop/til"
                (VBool true)) as (title & Htitle & _);
      [reflexivity | reflexivity | by vm_compute |].
    rewrite Htitle. vm_compute in Htitle. by injection Htitle as <-.
  - destruct (title_after_load shop false bolt (loaded shop bolt) "/shop/bolt"
                (VBool true)) as (title & Htitle & _ & Hstr);
      [reflexivity | reflexivity | by vm_compute |].
    rewrite Hstr. vm_compute in Htitle. by injection Htitle as <-.
Defined.

(** ** Disk usage is opt-in *)

(** X6.  Without [include_disk] a load leaves [disk] as the configuration
    load left it (so "TBD" for a fresh project whose configuration does not
    assign it); with [include_disk] it becomes the trimmed output of the
    [du] command run on the root. *)
Theorem disk_is_opt_in (w : World) (self : instance) (r : string) :
  attrs self !! "root" = Some (VStr r) -> path_exists w r = true ->
  (forall self' ret,
     Project.load w false self = Ok (self', ret) ->
     attrs self' !! "disk" = attrs (after_config w self) !! "disk")
  /\
  (forall self' ret,
     Project.load w true self = Ok (self', ret) ->
     exists root,
       attrs self' !! "root" = Some (VStr root) /\
       attrs self' !! "disk"
       = Some (VStr (strip (getstatusoutput w (Project.du_cmd root)).2))).
Proof.
  intros Hr He. split; intros self' ret H.
  - destruct (load_attrs _ _ _ _ _ _ Hr He H)
      as (s2 & root & version & Hs2 & _ & _ & _ & _ & _ & _ & _ & _ & _).
    destruct (load_inv _ _ _ _ _ _ Hr He H)
      as (title & s2' & scm & s3 & version' & _ & Hs2' & Hscm & _ & -> & _).
    apply _get_scm_Ok in Hscm as (root' & _ & _ & -> & ->).
    assert (attrs s2' !! "disk" = attrs (after_config w self) !! "disk")
      as <-.
    { destruct (truthy title); [by subst|].
      destruct Hs2' as (name & _ & ->). by attr_simpl. }
    destruct (path_exists w (os_path_join root' ".git")); by attr_simpl.
  - destruct (load_inv _ _ _ _ _ _ Hr He H)
      as (title & s2 & scm & s3 & version & _ & _ & Hscm & _ & Hd & _).
    apply _get_scm_Ok in Hscm as (root & Hroot & _ & -> & ->).
    destruct Hd as (disk & Hdisk & ->).
    assert (attrs s2 !! "root" = Some (VStr root)) as Hroot2.
    { revert Hroot. by attr_simpl. }
    exists root.
    rewrite (_get_disk_root _ _ root) in Hdisk
      by (by destruct (path_exists w (os_path_join root ".git")); attr_simpl).
    injection Hdisk as <-.
    split; [|by attr_simpl].
    destruct (path_exists w (os_path_join root ".git")); by attr_simpl.
Qed.

Lemma disk_is_opt_in_witness :
  attrs (loaded shop junk) !! "disk" = Some (VStr "TBD")
  /\ attrs (loaded_with_disk shop junk) !! "disk" = Some (VStr "12K").
Proof.
  destruct (disk_is_opt_in shop junk "/shop/junk") as [Hoff Hon];
    [reflexivity | reflexivity |].
  split.
  - rewrite (Hoff (loaded shop junk) (VBool false)) by (by vm_compute).
    by vm_compute.
  - destruct (Hon (loaded_with_disk shop junk) (VBool false))
      as (root & Hroot & ->); [by vm_compute|].
    vm_compute in Hroot. injection Hroot as <-. by vm_compute.
Defined.

(** ** The keys of the project section *)




(** ** A configuration that blanks the root *)



(** ** One manifest *)

(** X9.  When exactly one of the candidate manifests exists,
    [get_dependencies] returns exactly six pairs, one per environment in
    the order base, control, development, testing, staging, live, all read
    from that manifest; an environment without packages is still listed. *)
Theorem get_dependencies_single (w : World) (self : instance)
    (root i : string) :
  attrs self !! "root" = Some (VStr root) -> root <> "" ->
  is_Some (attrs self !! "debug") ->
  i ∈ Project.locations ->
  path_exists w (os_path_join root i) = true ->
  (forall j, j ∈ Project.locations -> j <> i ->
             path_exists w (os_path_join root j) = false) ->
  exists deps,
    Project.get_dependencies w self = Ok deps /\
    length deps = 6 /\
    map fst deps = ["base"; "control"; "development"; "testing"; "staging";
                    "live"] /\
    forall env packages, (env, packages) ∈ deps ->
      packages = PackageConfig.get_packages
                   (manifest w (os_path_join root i)) (Some env).
Proof.
  intros Hr Hne Hdbg Hi He Hothers.
  exists (environment_entries w (os_path_join root i)).
  split; [|split; [done|split; [done|]]].
  - rewrite (get_dependencies_all _ _ _ Hr Hne Hdbg). f_equal.
    assert (forall j, j ∈ Project.locations ->
              (if path_exists w (os_path_join root j)
               then environment_entries w (os_path_join root j) else [])
              = if bool_decide (j = i)
                then environment_entries w (os_path_join root i) else [])
      as Hsel.
    { intros j Hj. case_bool_decide as Hji; [subst; by rewrite He|].
      by rewrite (Hothers j Hj Hji). }
    unfold Project.locations in *. cbn [flat_map].
    rewrite !Hsel by (apply (bool_decide_unpack _); by vm_compute).
    repeat (apply elem_of_cons in Hi as [-> | Hi]);
      [| | | by apply elem_of_nil in Hi];
      rewrite ?bool_decide_eq_true_2 by done;
      rewrite ?bool_decide_eq_false_2 by (by vm_compute);
      by rewrite ?app_nil_r.
  - intros env packages Hin. unfold environment_entries in Hin.
    apply list_elem_of_fmap in Hin as (e & [= -> ->] & _). done.
Qed.

Lemma get_dependencies_single_witness :
  exists deps,
    Project.get_dependencies shop (loaded shop bolt) = Ok deps /\
    length deps = 6.
Proof.
  destruct (get_dependencies_single shop (loaded shop bolt) "/shop/bolt"
              "requirements.ini") as (deps & Hdeps & Hlen & _).
  - reflexivity.
  - discriminate.
  - eexists. by vm_compute.
  - apply (bool_decide_unpack _). by vm_compute.
  - reflexivity.
  - intros j Hj Hne. vm_compute in Hj.
    repeat (apply elem_of_cons in Hj as [-> | Hj]; [try done|]).
    by apply elem_of_nil in Hj.
  - by exists deps.
Defined.

(** ** What a load leaves alone *)

Lemma load_past_root_frame (w : World) (d : bool) (self self' : instance)
    (r : string) (ret : value) :
  attrs self !! "root" = Some (VStr r) -> path_exists w r = true ->
  Project.load w d self = Ok (self', ret) ->
  forall k, k ∉ ["title"; "org"; "is_dirty"; "scm"; "version"; "disk"] ->
    attrs self' !! k = attrs (after_config w self) !! k.
Proof.
  intros Hr He H k Hk.
  destruct (load_writes_inv _ _ _ _ _ _ Hr He H) as (W & HW & -> & _).
  destruct (writes_keys _ _ _ _ HW) as (_ & _ & _ & _ & _ & HWnone).
  apply lookup_union_r. by apply HWnone.
Qed.

(** X10.  A load that returns never removes an attribute, returns the value
    of [is_loaded], keeps the configuration path, and, once past the root
    test, changes nothing but title, org, is_dirty, scm, version and disk
    beyond what the configuration load assigned. *)
Theorem load_frame (w : World) (d : bool) (self self' : instance)
    (ret : value) :
  Project.load w d self = Ok (self', ret) ->
  attrs self' !! "is_loaded" = Some ret /\
  config_path self' = config_path self /\
  (forall k, is_Some (attrs self !! k) -> is_Some (attrs self' !! k)) /\
  (forall r, attrs self !! "root" = Some (VStr r) -> path_exists w r = true ->
     forall k, k ∉ ["title"; "org"; "is_dirty"; "scm"; "version"; "disk"] ->
       attrs self' !! k = attrs (after_config w self) !! k).
Proof.
  intros H. destruct (load_root _ _ _ _ _ H) as [r Hr].
  split; [|split; [|split]].
  - destruct (path_exists w r) eqn:He.
    + by destruct (load_writes_inv _ _ _ _ _ _ Hr He H) as (W & _ & _ & _ & ?).
    + rewrite (load_missing _ _ _ _ Hr He) in H. injection H as <- <-.
      by attr_simpl.
  - destruct (path_exists w r) eqn:He.
    + by destruct (load_writes_inv _ _ _ _ _ _ Hr He H) as (W & _ & _ & ? & _).
    + rewrite (load_missing _ _ _ _ Hr He) in H. by injection H as <- <-.
  - intros k. by apply load_keeps with w d ret.
  - intros r' Hr' He. by apply load_past_root_frame with d r' ret.
Qed.

Lemma load_frame_witness :
  attrs (loaded shop til) !! "status" = Some (VStr "live")
  /\ attrs (loaded shop til) !! "name" = Some (VStr "til").
Proof.
  destruct (load_frame shop false til (loaded shop til) (VBool true))
    as (_ & _ & _ & Hframe); [by vm_compute|].
  split.
  - rewrite (Hframe "/shop/til"); [by vm_compute | reflexivity | reflexivity |].
    apply (bool_decide_unpack _). by vm_compute.
  - rewrite (Hframe "/shop/til"); [by vm_compute | reflexivity | reflexivity |].
    apply (bool_decide_unpack _). by vm_compute.
Defined.

(** ** Autoloading, the other way round *)

Lemma autoload_from_None (w : World) (d : bool) (path : string)
    (names : list string) :
  autoload_from w d path names = Ok None ->
  forall n, n ∈ names -> path_exists w (os_path_join path n) = false.
Proof.
  induction names as [|c names IH]; intros H n Hn.
  - by apply elem_of_nil in Hn.
  - cbn [autoload_from] in H.
    destruct (path_exists w (os_path_join path c)) eqn:Hc.
    + bind_inv H. destruct a. discriminate H.
    + apply elem_of_cons in Hn as [-> | Hn]; [done | by apply IH].
Qed.

(** X11.  [autoload_project] returns [None] only when none of its four
    candidate directories exists: if a candidate exists the call returns a
    project or raises, never [None]. *)
Theorem autoload_none_only_if_absent (w : World) (name : string) (d : bool)
    (path : string) :
  autoload_project w name d path = Ok None ->
  forall n, n ∈ autoload_names name ->
            path_exists w (os_path_join path n) = false.
Proof. unfold autoload_project. apply autoload_from_None. Qed.

Lemma autoload_none_only_if_absent_witness :
  path_exists srv (os_path_join "/srv" "gamma-ray") = false.
Proof.
  apply (autoload_none_only_if_absent srv "Gamma Ray" false "/srv").
  - by vm_compute.
  - apply (bool_decide_unpack _). by vm_compute.
Defined.

Lemma init_name_root (w : World) (name root : string) (debug : bool) :
  attrs (Project.__init__ w name root debug) !! "name" = Some (VStr name)
  /\ attrs (Project.__init__ w name root debug) !! "root" = Some (VStr root)
  /\ config_path (Project.__init__ w name root debug)
     = os_path_join root "project.ini".
Proof.
  unfold Project.__init__.
  destruct (path_exists w (os_path_join root "project.ini")); by vm_compute.
Qed.

(** X12.  The project [autoload_project] returns is named after the
    candidate directory it found, not after the name it was given, and is
    rooted at that directory, when the directory has no [project.ini]. *)
Theorem autoload_project_named_after_directory (w : World) (name : string)
    (d : bool) (path : string) (before after : list string) (c : string)
    (p : instance) :
  autoload_names name = (before ++ c :: after)%list ->
  (forall n, n ∈ before -> path_exists w (os_path_join path n) = false) ->
  path_exists w (os_path_join path c) = true ->
  path_exists w (os_path_join (os_path_join path c) "project.ini") = false ->
  autoload_project w name d path = Ok (Some p) ->
  attrs p !! "name" = Some (VStr c) /\
  attrs p !! "root" = Some (VStr (os_path_join path c)) /\
  attrs p !! "title" = Some (VStr c).
Proof.
  intros Hnames Hbefore Hc Hini H.
  unfold autoload_project in H.
  rewrite Hnames, (autoload_from_first _ _ _ _ _ _ Hbefore Hc) in H.
  bind_inv H. destruct a as [q ret]. injection H as ->.
  destruct (init_name_root w c (os_path_join path c) false)
    as (Hname & Hroot & Hcp).
  pose proof (load_past_root_frame _ _ _ _ _ _ Hroot Hc E) as Hframe.
  rewrite after_config_missing in Hframe by (by rewrite Hcp).
  rewrite !Hframe by (apply (bool_decide_unpack _); by vm_compute).
  split; [done|]. split; [done|].
  destruct (load_writes_inv _ _ _ _ _ _ Hroot Hc E) as (W & HW & Ha & _).
  destruct (writes_keys _ _ _ _ HW) as (tv & root & Htv & HWt & _).
  rewrite Ha, (lookup_union_Some_l _ _ _ _ HWt). f_equal.
  rewrite after_config_missing in Htv by (by rewrite Hcp).
  unfold title_value, getattr in Htv. rewrite Hname in Htv.
  unfold Project.__init__ in Htv. rewrite Hini in Htv.
  vm_compute in Htv. by injection Htv as <-.
Qed.

Lemma autoload_project_named_after_directory_witness :
  attrs (loaded srv my_site) !! "name" = Some (VStr "my-site").
Proof.
  apply (autoload_project_named_after_directory srv "My Site" false "/srv"
           ["my site"; "my site"] ["my_site"] "my-site" (loaded srv my_site)).
  - reflexivity.
  - intros n Hn.
    repeat (apply elem_of_cons in Hn as [-> | Hn]; [reflexivity|]).
    by apply elem_of_nil in Hn.
  - reflexivity.
  - reflexivity.
  - by vm_compute.
Defined.

(** ** Decimal numbers in version strings *)

Lemma all_chars_app (f : ascii -> bool) (a b : string) :
  all_chars f (a +:+ b) = all_chars f a && all_chars f b.
Proof.
  induction a as [|c a IH]; [done|].
  change (f c && all_chars f (a +:+ b) = f c && all_chars f a && all_chars f b).
  rewrite IH. by destruct (f c).
Qed.

Lemma all_chars_impl (f g : ascii -> bool) (s : string) :
  (forall c, f c = true -> g c = true) ->
  all_chars f s = true -> all_chars g s = true.
Proof.
  intros Hfg. induction s as [|c s IH]; [done|]. cbn [all_chars].
  intros [Hc Hs]%andb_prop. by rewrite (Hfg c Hc), (IH Hs).
Qed.

Lemma span_app (f : ascii -> bool) (a rest : string) :
  all_chars f a = true -> head_fails f rest = true ->
  semver.span f (a +:+ rest) = (a, rest).
Proof.
  intros Ha Hrest. induction a as [|c a IH].
  - change ("" +:+ rest) with rest. destruct rest as [|c rest]; [done|].
    cbn in *. by destruct (f c).
  - cbn [all_chars] in Ha. apply andb_prop in Ha as [Hc Ha].
    change (String c a +:+ rest) with (String c (a +:+ rest)).
    cbn [semver.span]. by rewrite Hc, (IH Ha).
Qed.

Lemma string_of_uint_digits (d : Decimal.uint) :
  all_chars semver.is_digit (NilEmpty.string_of_uint d) = true.
Proof. induction d; cbn [NilEmpty.string_of_uint all_chars]; by try rewrite IHd. Qed.

Lemma digits_value_acc (d : Decimal.uint) (p : positive) :
  fold_left (fun acc c => (acc * 10 + N.of_nat (nat_of_ascii c - 48))%N)
    (list_ascii_of_string (NilEmpty.string_of_uint d)) (Npos p)
  = Npos (Pos.of_uint_acc d p).
Proof.
  revert p.
  induction d; intros p;
    cbn [NilEmpty.string_of_uint list_ascii_of_string fold_left
         Pos.of_uint_acc];
    [done | ..];
    rewrite <- IHd; f_equal;
    match goal with
    | |- context [N.of_nat ?t] =>
        let v := eval vm_compute in (N.of_nat t) in
        change (N.of_nat t) with v
    end; lia.
Qed.

Lemma digits_value (d : Decimal.uint) :
  semver.int_of_digits (NilEmpty.string_of_uint d) = N.of_uint d.
Proof.
  unfold semver.int_of_digits, N.of_uint.
  induction d;
    cbn [NilEmpty.string_of_uint list_ascii_of_string fold_left Pos.of_uint];
    [done | exact IHd | ..];
    by rewrite <- digits_value_acc.
Qed.

Lemma int_of_digits_str_of_int (n : N) :
  semver.int_of_digits (semver.str_of_int n) = n.
Proof.
  unfold semver.str_of_int. rewrite digits_value.
  apply DecimalN.Unsigned.of_to.
Qed.

Lemma nzhead_not_D0 (d d' : Decimal.uint) : Decimal.nzhead d <> Decimal.D0 d'.
Proof. induction d; cbn [Decimal.nzhead]; try discriminate. exact IHd. Qed.

(** The digits of a number: "0", or digits that do not start with "0". *)
Lemma to_uint_shape (n : N) :
  N.to_uint n = Decimal.zero \/
  (N.to_uint n <> Decimal.Nil /\ forall d, N.to_uint n <> Decimal.D0 d).
Proof.
  pose proof (DecimalN.Unsigned.to_of (N.to_uint n)) as H.
  rewrite DecimalN.Unsigned.of_to in H. unfold Decimal.unorm in H.
  destruct (Decimal.nzhead (N.to_uint n)) eqn:Hnz; try (by left);
    right; rewrite H; split; try discriminate; intros d';
    rewrite <- Hnz; apply nzhead_not_D0.
Qed.

Lemma numeric_str_of_int (n : N) (rest : string) :
  head_fails semver.is_digit rest = true ->
  semver.numeric (semver.str_of_int n +:+ rest) = Some (n, rest).
Proof.
  intros Hrest. pose proof (int_of_digits_str_of_int n) as Hval.
  unfold semver.numeric, semver.str_of_int in *.
  rewrite (span_app _ _ _ (string_of_uint_digits _) Hrest).
  destruct (to_uint_shape n) as [Hz | [Hnil Hd0]].
  - rewrite Hz in *. cbn in Hval. by subst n.
  - destruct (N.to_uint n) as [|d|d|d|d|d|d|d|d|d|d]; try done;
      try (by specialize (Hd0 d));
      cbn [NilEmpty.string_of_uint] in *; by rewrite Hval.
Qed.

(** ** Labels in version strings *)

Lemma dotted_from_chars (b : bool) (s : string) :
  semver.dotted_from b s = true ->
  all_chars (fun c => semver.is_ident_char c || Ascii.eqb c ".") s = true.
Proof.
  revert b. induction s as [|c s IH]; intros b; [done|].
  cbn [semver.dotted_from all_chars].
  destruct (semver.is_ident_char c); cbn [orb andb].
  - apply IH.
  - destruct (Ascii.eqb c "."); [|discriminate].
    intros [_ H]%andb_prop. cbn [andb]. by apply IH with false.
Qed.

Lemma label_char_no_plus (c : ascii) :
  semver.is_ident_char c || Ascii.eqb c "." = true ->
  negb (Ascii.eqb c "+") = true.
Proof. destruct (Ascii.eqb_spec c "+") as [-> |]; [by vm_compute | done]. Qed.

Lemma label_char_no_newline (c : ascii) :
  semver.is_ident_char c || Ascii.eqb c "." = true ->
  negb (Ascii.eqb c "010") = true.
Proof. destruct (Ascii.eqb_spec c "010") as [-> |]; [by vm_compute | done]. Qed.

Lemma digit_no_newline (c : ascii) :
  semver.is_digit c = true -> negb (Ascii.eqb c "010") = true.
Proof. destruct (Ascii.eqb_spec c "010") as [-> |]; [by vm_compute | done]. Qed.

Lemma dotted_nonempty (s : string) : semver.dotted s = true -> s <> "".
Proof. by destruct s. Qed.

Lemma given_valid (label : option string) :
  valid_label label = true ->
  Version.given label = match label with Some _ => true | None => false end.
Proof.
  destruct label as [l|]; [|done]. cbn. intros H%dotted_nonempty.
  by destruct (String.eqb_spec l "").
Qed.

Lemma labels_format (pre bld : option string) :
  valid_label pre = true -> valid_label bld = true ->
  semver.labels (label_part "-" pre +:+ label_part "+" bld) = Some (pre, bld).
Proof.
  intros Hpre Hbld. destruct pre as [p|]; cbn [label_part valid_label] in *.
  - change (String "-" p +:+ label_part "+" bld)
      with (String "-" (p +:+ label_part "+" bld)).
    cbn [semver.labels].
    rewrite (span_app (fun c => negb (Ascii.eqb c "+")) p).
    + rewrite Hpre. destruct bld as [b|]; cbn [label_part valid_label] in *.
      * by rewrite Hbld.
      * done.
    + eapply all_chars_impl; [apply label_char_no_plus|].
      by apply dotted_from_chars with false.
    + by destruct bld.
  - change ("" +:+ label_part "+" bld) with (label_part "+" bld).
    destruct bld as [b|]; cbn [label_part valid_label semver.labels] in *.
    + by rewrite Hbld.
    + done.
Qed.

Lemma labels_valid (s : string) (pre bld : option string) :
  semver.labels s = Some (pre, bld) ->
  valid_label pre = true /\ valid_label bld = true.
Proof.
  destruct s as [|c s]; [by intros [= <- <-]|].
  destruct c as [[] [] [] [] [] [] [] []]; cbn [semver.labels];
    try discriminate.
  - destruct (semver.dotted s) eqn:Hd; [|discriminate]. by intros [= <- <-].
  - destruct (semver.span _ s) as [p rest].
    destruct (semver.dotted p) eqn:Hp; [|discriminate].
    destruct rest as [|c rest]; [by intros [= <- <-]|].
    destruct (semver.dotted rest) eqn:Hb; [|discriminate].
    by intros [= <- <-].
Qed.

Lemma chomp_id (s : string) :
  all_chars (fun c => negb (Ascii.eqb c "010")) s = true ->
  semver.chomp s = s.
Proof.
  induction s as [|c s IH]; [done|]. cbn [all_chars].
  intros [Hc Hs]%andb_prop. specialize (IH Hs).
  destruct c as [[] [] [] [] [] [] [] []]; cbn [semver.chomp];
    try (by rewrite IH); try discriminate Hc.
Qed.

(** A version string that is written out from its parts parses back to
    them. *)
Lemma parse_format (a b c : N) (pre bld : option string) :
  valid_label pre = true -> valid_label bld = true ->
  semver.parse
    (semver.format_version a b c +:+ label_part "-" pre +:+ label_part "+" bld)
  = Some {| semver.major := a; semver.minor := b; semver.patch := c;
            semver.prerelease := pre; semver.build := bld |}.
Proof.
  intros Hpre Hbld. unfold semver.format_version.
  set (L := label_part "-" pre +:+ label_part "+" bld).
  rewrite !string_app_assoc.
  repeat change ("." +:+ ?x) with (String "." x).
  assert (head_fails semver.is_digit L = true) as HL.
  { unfold L. destruct pre, bld; reflexivity. }
  unfold semver.parse. rewrite chomp_id.
  - rewrite numeric_str_of_int by reflexivity.
    cbn [mbind option_bind semver.expect Ascii.eqb Bool.eqb].
    rewrite numeric_str_of_int by reflexivity.
    cbn [mbind option_bind semver.expect Ascii.eqb Bool.eqb].
    rewrite numeric_str_of_int by exact HL. cbn [mbind option_bind].
    unfold L. by rewrite labels_format.
  - assert (forall n, all_chars (fun c => negb (Ascii.eqb c "010"))
                        (semver.str_of_int n) = true) as Hnum.
    { intros n. eapply all_chars_impl; [apply digit_no_newline|].
      apply string_of_uint_digits. }
    assert (forall sep (o : option string),
              negb (Ascii.eqb sep "010") = true -> valid_label o = true ->
              all_chars (fun c => negb (Ascii.eqb c "010")) (label_part sep o)
              = true) as Hlabel.
    { intros sep [l|] Hsep Ho; [|done]. cbn [label_part all_chars].
      rewrite Hsep. cbn [andb].
      eapply all_chars_impl; [apply label_char_no_newline|].
      by apply dotted_from_chars with false. }
    rewrite all_chars_app, Hnum. cbn [andb all_chars Ascii.eqb Bool.eqb negb].
    rewrite all_chars_app, Hnum. cbn [andb all_chars Ascii.eqb Bool.eqb negb].
    rewrite all_chars_app, Hnum. cbn [andb]. unfold L.
    by rewrite all_chars_app, !Hlabel.
Qed.

Lemma parse_labels_valid (s : string) (v : semver.VersionInfo) :
  semver.parse s = Some v ->
  valid_label (semver.prerelease v) = true
  /\ valid_label (semver.build v) = true.
Proof.
  unfold semver.parse. intros H.
  destruct (semver.numeric _) as [[ma s1]|]; [|discriminate].
  cbn [mbind option_bind] in H.
  destruct (semver.expect "." s1) as [s2|]; [|discriminate].
  cbn [mbind option_bind] in H.
  destruct (semver.numeric s2) as [[mi s3]|]; [|discriminate].
  cbn [mbind option_bind] in H.
  destruct (semver.expect "." s3) as [s4|]; [|discriminate].
  cbn [mbind option_bind] in H.
  destruct (semver.numeric s4) as [[pa s5]|]; [|discriminate].
  cbn [mbind option_bind] in H.
  destruct (semver.labels s5) as [[pre bld]|] eqn:Hl; [|discriminate].
  cbn [mbind option_bind] in H. injection H as <-.
  cbn [semver.prerelease semver.build]. by apply labels_valid with s5.
Qed.

(** ** Bumping a number *)

(** Appending a label the way [bump] does: the given one, else the one the
    version has. *)
Lemma append_label (current : string) (sep : ascii) (given_label own : option string) :
  valid_label own = true ->
  (if Version.given given_label
   then current +:+ String sep "" +:+ default "" given_label
   else if Version.given own
        then current +:+ String sep "" +:+ default "" own
        else current)
  = current +:+ label_part sep (if Version.given given_label then given_label
                                else own).
Proof.
  intros Hown. destruct (Version.given given_label) eqn:Hg.
  - destruct given_label as [l|]; [reflexivity | discriminate Hg].
  - rewrite (given_valid _ Hown). destruct own as [l|]; [reflexivity|].
    cbn [label_part]. by rewrite string_app_nil_r.
Qed.

Lemma format_version_nonempty (a b c : N) (rest : string) :
  semver.format_version a b c +:+ rest <> "".
Proof.
  unfold semver.format_version. rewrite !string_app_assoc.
  by destruct (semver.str_of_int a).
Qed.

(** What [bump] does with a number named, for any instance whose original
    string parses and whose labels are valid ones. *)
Lemma bump_number_core (self : Version.t) (v0 : semver.VersionInfo)
    (major minor patch : bool) (status build : option string) :
  semver.parse (Version._original self) = Some v0 ->
  valid_label (semver.prerelease (Version.object self)) = true ->
  valid_label (semver.build (Version.object self)) = true ->
  major || minor || patch = true ->
  (Version.given status = true -> valid_label status = true) ->
  (Version.given build = true -> valid_label build = true) ->
  let n := bumped major minor patch v0 in
  let pre := if Version.given status then status
             else semver.prerelease (Version.object self) in
  let bld := if Version.given build then build
             else semver.build (Version.object self) in
  valid_label pre = true /\ valid_label bld = true /\
  Version.bump self major minor patch status build
  = Ok {| Version._current :=
            Some (semver.format_version n.1.1 n.1.2 n.2
                  +:+ label_part "-" pre +:+ label_part "+" bld);
          Version._original := Version._original self;
          Version.object :=
            {| semver.major := n.1.1; semver.minor := n.1.2;
               semver.patch := n.2; semver.prerelease := pre;
               semver.build := bld |} |}.
Proof.
  intros Hparse Hpre Hbld Hflag Hstatus Hbuild n pre bld.
  assert (valid_label pre = true) as Hpre'.
  { unfold pre. destruct (Version.given status); [by apply Hstatus | done]. }
  assert (valid_label bld = true) as Hbld'.
  { unfold bld. destruct (Version.given build); [by apply Hbuild | done]. }
  split; [done|]. split; [done|].
  unfold Version.bump.
  assert ((if major
           then Version.of_option (semver.bump_major (Version._original self))
           else if minor
                then Version.of_option (semver.bump_minor (Version._original self))
                else if patch
                     then Version.of_option
                            (semver.bump_patch (Version._original self))
                     else Ok (Version._original self))
          = Ok (semver.format_version n.1.1 n.1.2 n.2)) as ->.
  { unfold n, bumped, semver.bump_major, semver.bump_minor, semver.bump_patch.
    rewrite Hparse. cbn [mbind option_bind Version.of_option].
    destruct major; [done|]. destruct minor; [done|].
    destruct patch; [done | discriminate Hflag]. }
  cbn [bind].
  rewrite (append_label _ "-" status _ Hpre).
  rewrite (append_label _ "+" build _ Hbld).
  fold pre bld. unfold semver.parse_version_info.
  rewrite string_app_assoc.
  by rewrite (parse_format _ _ _ _ _ Hpre' Hbld').
Qed.

Lemma __init___parse (s : string) (self : Version.t) :
  Version.__init__ s = Ok self ->
  Version._original self = s /\ Version._current self = None /\
  semver.parse s = Some (Version.object self).
Proof.
  unfold Version.__init__, semver.parse_version_info. intros H.
  destruct (semver.parse s) as [v|]; [|discriminate H].
  cbn in H. by injection H as <-.
Qed.

Lemma to_string_current (self : Version.t) (a b c : N) (rest : string) :
  Version._current self = Some (semver.format_version a b c +:+ rest) ->
  Version.to_string self = semver.format_version a b c +:+ rest.
Proof.
  unfold Version.to_string. intros ->. cbn [Version.given default from_option id].
  destruct (String.eqb_spec (semver.format_version a b c +:+ rest) "")
    as [Hempty|]; [|done].
  by apply format_version_nonempty in Hempty.
Qed.

(** X13.  On a version that parsed, [bump] with a number named never
    raises: the first of major, minor, patch that is named is incremented
    and the numbers after it become 0; the prerelease and build labels are
    the given status and build when these are given and valid, and the
    version's own otherwise; and the version prints as exactly these
    parts. *)
Theorem bump_number_components (s : string) (self : Version.t)
    (major minor patch : bool) (status build : option string) :
  Version.__init__ s = Ok self ->
  major || minor || patch = true ->
  (Version.given status = true -> valid_label status = true) ->
  (Version.given build = true -> valid_label build = true) ->
  exists self',
    Version.bump self major minor patch status build = Ok self' /\
    (semver.major (Version.object self'), semver.minor (Version.object self'),
     semver.patch (Version.object self'))
    = bumped major minor patch (Version.object self) /\
    semver.prerelease (Version.object self')
    = (if Version.given status then status
       else semver.prerelease (Version.object self)) /\
    semver.build (Version.object self')
    = (if Version.given build then build
       else semver.build (Version.object self)) /\
    Version.to_string self'
    = semver.format_version (semver.major (Version.object self'))
        (semver.minor (Version.object self')) (semver.patch (Version.object self'))
      +:+ label_part "-" (semver.prerelease (Version.object self'))
      +:+ label_part "+" (semver.build (Version.object self')).
Proof.
  intros Hinit Hflag Hstatus Hbuild.
  destruct (__init___parse _ _ Hinit) as (Ho & _ & Hparse).
  destruct (parse_labels_valid _ _ Hparse) as [Hpre Hbld].
  rewrite <- Ho in Hparse.
  destruct (bump_number_core self _ major minor patch status build
              Hparse Hpre Hbld Hflag Hstatus Hbuild) as (_ & _ & Hbump).
  eexists. split; [exact Hbump|].
  cbn [Version.object semver.major semver.minor semver.patch
       semver.prerelease semver.build].
  split; [by destruct (bumped major minor patch (Version.object self))
            as [[? ?] ?]|].
  split; [done|]. split; [done|].
  by apply to_string_current.
Qed.

Lemma bump_number_components_witness :
  exists self',
    (let* v := Version.__init__ "1.9.3-beta+b7" in
     Version.bump v false true false (Some "rc.1") None) = Ok self' /\
    Version.to_string self' = "1.10.0-rc.1+b7".
Proof.
  destruct (bump_number_components "1.9.3-beta+b7"
              {| Version._current := None;
                 Version._original := "1.9.3-beta+b7";
                 Version.object :=
                   {| semver.major := 1; semver.minor := 9; semver.patch := 3;
                      semver.prerelease := Some "beta";
                      semver.build := Some "b7" |} |}
              false true false (Some "rc.1") None)
    as (self' & Hbump & _ & _ & _ & Hstr);
    [reflexivity | reflexivity | reflexivity | discriminate |].
  exists self'. split; [exact Hbump|].
  rewrite Hstr. vm_compute in Hbump. injection Hbump as <-. reflexivity.
Defined.

(** X14.  Bumps do not add up: every bump starts from the original string,
    so bumping the same number a second time, with no status or build
    given, leaves the version exactly as the first bump left it. *)
Theorem bump_is_not_cumulative (s : string) (self self' : Version.t)
    (major minor patch : bool) (status build : option string) :
  Version.__init__ s = Ok self ->
  major || minor || patch = true ->
  (Version.given status = true -> valid_label status = true) ->
  (Version.given build = true -> valid_label build = true) ->
  Version.bump self major minor patch status build = Ok self' ->
  Version.bump self' major minor patch None None = Ok self'
  /\ Version._original self' = s.
Proof.
  intros Hinit Hflag Hstatus Hbuild Hbump.
  destruct (__init___parse _ _ Hinit) as (Ho & _ & Hparse).
  destruct (parse_labels_valid _ _ Hparse) as [Hpre Hbld].
  rewrite <- Ho in Hparse.
  destruct (bump_number_core self _ major minor patch status build
              Hparse Hpre Hbld Hflag Hstatus Hbuild) as (Hpre' & Hbld' & Hfirst).
  rewrite Hfirst in Hbump. injection Hbump as <-.
  split; [|done].
  destruct (bump_number_core
              {| Version._current :=
                   Some (semver.format_version
                           (bumped major minor patch (Version.object self)).1.1
                           (bumped major minor patch (Version.object self)).1.2
                           (bumped major minor patch (Version.object self)).2
                         +:+ label_part "-"
                               (if Version.given status then status
                                else semver.prerelease (Version.object self))
                         +:+ label_part "+"
                               (if Version.given build then build
                                else semver.build (Version.object self)));
                 Version._original := Version._original self;
                 Version.object :=
                   {| semver.major :=
                        (bumped major minor patch (Version.object self)).1.1;
                      semver.minor :=
                        (bumped major minor patch (Version.object self)).1.2;
                      semver.patch :=
                        (bumped major minor patch (Version.object self)).2;
                      semver.prerelease :=
                        (if Version.given status then status
                         else semver.prerelease (Version.object self));
                      semver.build :=
                        (if Version.given build then build
                         else semver.build (Version.object self)) |} |}
              (Version.object self) major minor patch None None)
    as (_ & _ & Hsecond); try done.
Qed.

Lemma bump_is_not_cumulative_witness :
  (let* v := Version.__init__ "1.2.3-beta" in
   let* v := Version.bump v false true false None None in
   let* v := Version.bump v false true false None None in
   Ok (Version.to_string v)) = Ok "1.3.0-beta".
Proof.
  destruct (bump_is_not_cumulative "1.2.3-beta"
              {| Version._current := None;
                 Version._original := "1.2.3-beta";
                 Version.object :=
                   {| semver.major := 1; semver.minor := 2; semver.patch := 3;
                      semver.prerelease := Some "beta";
                      semver.build := None |} |}
              {| Version._current := Some "1.3.0-beta";
                 Version._original := "1.2.3-beta";
                 Version.object :=
                   {| semver.major := 1; semver.minor := 3; semver.patch := 0;
                      semver.prerelease := Some "beta";
                      semver.build := None |} |}
              false true false None None) as [Hagain _];
    [reflexivity | reflexivity | discriminate | discriminate | reflexivity |].
  change (Version.__init__ "1.2.3-beta") with
    (@Ok Version.t
       {| Version._current := None;
          Version._original := "1.2.3-beta";
          Version.object :=
            {| semver.major := 1; semver.minor := 2; semver.patch := 3;
               semver.prerelease := Some "beta";
               semver.build := None |} |}).
  cbn [bind].
  change (Version.bump _ false true false None None) with
    (@Ok Version.t
       {| Version._current := Some "1.3.0-beta";
          Version._original := "1.2.3-beta";
          Version.object :=
            {| semver.major := 1; semver.minor := 3; semver.patch := 0;
               semver.prerelease := Some "beta";
               semver.build := None |} |}) at 1.
  cbn [bind]. rewrite Hagain. reflexivity.
Defined.
